(** * markdown-to-ssml: the SSML renderer of [convert.py]

    A shallow embedding of [convert.py]: the [SSMLRenderer] methods, the
    token dispatch they are called from, [markdown_to_ssml], and the
    command-line driver [main] with [get_ogg], followed by the properties
    of the renderer and of the driver.

    Python [str] values are modelled as [string] (a sequence of
    characters; text beyond ASCII is held UTF-8 encoded, and no byte of a
    multi-byte sequence is one of the characters the renderer tests for),
    [Optional[str]] as [option string], [int] as [Z], a [dict] as a
    [gmap].  What lies outside the repository is a parameter: the
    Markdown parser, [os.path.splitext], the speech service, and the
    platform's answers when files are opened, decoded and encoded. *)

From Stdlib Require Import ZArith Ascii String List Bool Lia DecimalString.
From stdpp Require Import gmap strings.

Local Open Scope Z_scope.

(** [String.append] reduces under [simpl] when its first argument is a
    constructor. *)
#[local] Arguments String.append !s1 s2 : simpl nomatch.

(** ** Characters that cannot be written inside a literal *)

Definition nl : string := String "010"%char "".
Definition dq_char : ascii := "034"%char.
Definition dq : string := String dq_char "".

(** ** Module-level constants *)

Definition BREAK_TIMES : gmap Z string :=
  {[ 1 := "300ms"; 2 := "200ms"; 3 := "100ms"; 4 := "0ms" ]}.
Definition PARAGRAPH_BREAK : string := "100ms".
Definition LINEBREAK : string := "400ms".
Definition HRULE_BREAK : string := "600ms".

(** ** Python library operations used by the renderer *)

(** [d.get(k, dflt)] *)
Definition dict_get {V : Type} (d : gmap Z V) (k : Z) (dflt : V) : V :=
  default dflt (d !! k).

(** [s.replace(old, new)] where [old] is one character: every occurrence,
    left to right, is replaced; the replacement text is not rescanned. *)
Fixpoint str_replace (old : ascii) (new : string) (s : string) : string :=
  match s with
  | EmptyString => EmptyString
  | String c rest =>
      if Ascii.eqb c old then new +:+ str_replace old new rest
      else String c (str_replace old new rest)
  end.

(** [html.escape(s)] with its default [quote=True]: five replacements in
    sequence, the ampersand first. *)
Definition html_escape (s : string) : string :=
  let s := str_replace "&" "&amp;" s in
  let s := str_replace "<" "&lt;" s in
  let s := str_replace ">" "&gt;" s in
  let s := str_replace dq_char "&quot;" s in
  let s := str_replace "'" "&#x27;" s in
  s.

(** [str(n)] for an [int]. *)
Definition str_int (n : Z) : string := NilZero.string_of_int (Z.to_int n).

(** Truth value of an [Optional[str]]: [None] and the empty string are
    false. *)
Definition truthy (o : option string) : bool :=
  match o with
  | Some (String _ _) => true
  | _ => false
  end.

(** [''.join(parts)] *)
Definition str_join (parts : list string) : string :=
  foldr String.append "" parts.

(** ** The methods of [SSMLRenderer]

    [heading] accepts further keyword arguments and ignores them. *)

Definition heading (text : string) (level : Z) : string :=
  let break_time := dict_get BREAK_TIMES level "0ms" in
  text +:+ "<break time=" +:+ dq +:+ break_time +:+ dq +:+ "/>" +:+ nl.

Definition emphasis (text : string) : string :=
  "<emphasis level=" +:+ dq +:+ "moderate" +:+ dq +:+ ">" +:+ text
    +:+ "</emphasis>".

Definition strong (text : string) : string :=
  "<emphasis level=" +:+ dq +:+ "strong" +:+ dq +:+ ">" +:+ text
    +:+ "</emphasis>".

Definition linebreak : string :=
  "<break time=" +:+ dq +:+ LINEBREAK +:+ dq +:+ "/>" +:+ nl.

Definition thematic_break : string :=
  "<break time=" +:+ dq +:+ HRULE_BREAK +:+ dq +:+ "/>" +:+ nl.

Definition image (src alt : string) (title : option string) : string :=
  if truthy title then "image of " +:+ default "" title else "".

Definition paragraph (text : string) : string :=
  "<p>" +:+ text +:+ "<break time=" +:+ dq +:+ PARAGRAPH_BREAK +:+ dq
    +:+ "/></p>" +:+ nl.

Definition link (text url : string) (title : option string) : string :=
  text.

Definition text (text : string) : string := html_escape text.

Definition block_code (code : string) (info : option string) : string :=
  text code.

Definition codespan (text0 : string) : string := text text0.

(** ** Methods inherited from [mistune.HTMLRenderer]

    [SSMLRenderer] overrides eleven methods; every other token type is
    rendered by the method of the base class.  The base class belongs to
    the [mistune] library, so the inherited methods are an interface of
    the model; [mistune_HTMLRenderer] instantiates it with the library's
    renderings of block quotes, lists and list items. *)

Record InheritedRenderer := {
  block_quote : string -> string;
  render_list : string -> bool -> option Z -> string;
  list_item : string -> string
}.

Definition mistune_HTMLRenderer : InheritedRenderer := {|
  block_quote text := "<blockquote>" +:+ nl +:+ text +:+ "</blockquote>" +:+ nl;
  render_list text ordered start :=
    if ordered then
      let html := "<ol" in
      let html :=
        match start with
        | Some n => html +:+ " start=" +:+ dq +:+ str_int n +:+ dq
        | None => html
        end in
      html +:+ ">" +:+ nl +:+ text +:+ "</ol>" +:+ nl
    else "<ul>" +:+ nl +:+ text +:+ "</ul>" +:+ nl;
  list_item text := "<li>" +:+ text +:+ "</li>" +:+ nl
|}.

(** ** The token tree produced by the Markdown parser

    The token kinds of the specification's data model, which are the
    eleven the renderer overrides, and of the kinds it inherits the block
    quote, the list and the list item.  The parser's other kinds (raw
    HTML blocks and inline HTML among them) are outside this model. *)

#[local] Set Warnings "-register-all".

Inductive node : Type :=
| Heading (level : Z) (children : list node)
| Paragraph (children : list node)
| Emphasis (children : list node)
| Strong (children : list node)
| Linebreak
| ThematicBreak
| Image (src alt : string) (title : option string)
| Link (children : list node) (url : string) (title : option string)
| Text (raw : string)
| Codespan (raw : string)
| BlockCode (code : string) (info : option string)
| BlockQuote (children : list node)
| MdList (ordered : bool) (start : option Z) (children : list node)
| ListItem (children : list node).

(** ** Token dispatch

    The parser renders a token by rendering its children, joining their
    fragments, and passing the joined text with the token's attributes to
    the renderer method named after the token type. *)

Section Dispatch.
Variable base : InheritedRenderer.

Fixpoint render_token (tok : node) : string :=
  match tok with
  | Heading level children =>
      heading (str_join (map render_token children)) level
  | Paragraph children => paragraph (str_join (map render_token children))
  | Emphasis children => emphasis (str_join (map render_token children))
  | Strong children => strong (str_join (map render_token children))
  | Linebreak => linebreak
  | ThematicBreak => thematic_break
  | Image src alt title => image src alt title
  | Link children url title =>
      link (str_join (map render_token children)) url title
  | Text raw => text raw
  | Codespan raw => codespan raw
  | BlockCode code info => block_code code info
  | BlockQuote children =>
      block_quote base (str_join (map render_token children))
  | MdList ordered start children =>
      render_list base (str_join (map render_token children)) ordered start
  | ListItem children =>
      list_item base (str_join (map render_token children))
  end.

Definition render_tokens (tokens : list node) : string :=
  str_join (map render_token tokens).

(** [markdown_to_ssml]: [markdown] is the parser object returned by
    [mistune.create_markdown(renderer=renderer)]; calling it parses the
    text into tokens and renders them. *)
Definition markdown_to_ssml (parse : string -> list node)
    (markdown_text : string) : string :=
  let out_text := render_tokens (parse markdown_text) in
  "<speak>" +:+ out_text +:+ "</speak>".
End Dispatch.

(** ** Well-formedness of XML content

    A scanner for the XML that SSML is written in: character data,
    references ([&name;], [&#N;], [&#xH;]), start tags with quoted
    attributes, end tags and empty-element tags.  The scanner keeps the
    stack of open elements; content is well formed when the scan ends in
    character data with every element closed and every character is one
    XML 1.0 allows.  Comments, CDATA sections, processing instructions
    and declarations are not accepted: the renderer writes none. *)

Inductive xml_mode : Type :=
| InText (brackets : nat)
| InReference (acc : string)
| InTagOpen
| InStartName (name : string)
| InAttrGap (name : string) (attrs : list string)
| InAttrName (name : string) (attrs : list string) (attr : string)
| InAttrNameEnd (name : string) (attrs : list string) (attr : string)
| InAttrEq (name : string) (attrs : list string)
| InAttrValue (name : string) (attrs : list string) (quote : ascii)
| InAttrReference (name : string) (attrs : list string) (quote : ascii)
    (acc : string)
| InAttrEnd (name : string) (attrs : list string)
| InEmptyEnd
| InEndName (name : string)
| InEndGap (name : string).

Record xml_state := XmlState { open_elems : list string; mode : xml_mode }.

Definition in_range (lo hi : nat) (c : ascii) : bool :=
  let n := nat_of_ascii c in (lo <=? n)%nat && (n <=? hi)%nat.

Definition is_letter (c : ascii) : bool :=
  in_range 65 90 c || in_range 97 122 c.
Definition is_digit (c : ascii) : bool := in_range 48 57 c.
Definition is_hex_digit (c : ascii) : bool :=
  is_digit c || in_range 65 70 c || in_range 97 102 c.
Definition is_name_start (c : ascii) : bool :=
  is_letter c || Ascii.eqb c "_" || Ascii.eqb c ":".
Definition is_name_char (c : ascii) : bool :=
  is_name_start c || is_digit c || Ascii.eqb c "-" || Ascii.eqb c ".".
Definition is_space (c : ascii) : bool :=
  Ascii.eqb c " " || Ascii.eqb c "009" || Ascii.eqb c "010"
    || Ascii.eqb c "013".

Fixpoint string_forallb (p : ascii -> bool) (s : string) : bool :=
  match s with
  | EmptyString => true
  | String c rest => p c && string_forallb p rest
  end.

(** The code points XML 1.0 allows. *)
Definition xml_code_point (n : N) : bool :=
  ((n =? 9) || (n =? 10) || (n =? 13)
   || ((32 <=? n) && (n <=? 55295))
   || ((57344 <=? n) && (n <=? 65533))
   || ((65536 <=? n) && (n <=? 1114111)))%N.

Definition digit_value (c : ascii) : N :=
  let n := N_of_ascii c in
  (if is_digit c then n - 48
   else if in_range 65 70 c then n - 55
   else n - 87)%N.

Definition number_value (radix : N) (digits : string) : N :=
  (fix go (acc : N) (s : string) : N :=
     match s with
     | EmptyString => acc
     | String c rest => go (acc * radix + digit_value c)%N rest
     end) 0%N digits.

(** The body of a reference, between [&] and [;]: one of the five
    predefined entities, or the number of an allowed code point. *)
Definition valid_reference (body : string) : bool :=
  match body with
  | String "#" (String "x" (String h hs)) =>
      string_forallb is_hex_digit (String h hs)
        && xml_code_point (number_value 16 (String h hs))
  | String "#" (String d ds) =>
      string_forallb is_digit (String d ds)
        && xml_code_point (number_value 10 (String d ds))
  | _ =>
      String.eqb body "amp" || String.eqb body "lt" || String.eqb body "gt"
        || String.eqb body "quot" || String.eqb body "apos"
  end.

Definition snoc (s : string) (c : ascii) : string := s +:+ String c "".

Definition xml_step (st : xml_state) (c : ascii) : option xml_state :=
  let stk := open_elems st in
  match mode st with
  | InText brackets =>
      if Ascii.eqb c "<" then Some (XmlState stk InTagOpen)
      else if Ascii.eqb c "&" then Some (XmlState stk (InReference ""))
      else if Ascii.eqb c "]" then
        Some (XmlState stk (InText (Nat.min 2 (S brackets))))
      else if Ascii.eqb c ">" then
        if (2 <=? brackets)%nat then None
        else Some (XmlState stk (InText 0))
      else Some (XmlState stk (InText 0))
  | InReference acc =>
      if Ascii.eqb c ";" then
        if valid_reference acc then Some (XmlState stk (InText 0)) else None
      else if is_name_char c || Ascii.eqb c "#" then
        Some (XmlState stk (InReference (snoc acc c)))
      else None
  | InTagOpen =>
      if Ascii.eqb c "/" then Some (XmlState stk (InEndName ""))
      else if is_name_start c then
        Some (XmlState stk (InStartName (String c "")))
      else None
  | InStartName name =>
      if is_name_char c then Some (XmlState stk (InStartName (snoc name c)))
      else if is_space c then Some (XmlState stk (InAttrGap name []))
      else if Ascii.eqb c ">" then Some (XmlState (name :: stk) (InText 0))
      else if Ascii.eqb c "/" then Some (XmlState stk InEmptyEnd)
      else None
  | InAttrGap name attrs =>
      if is_space c then Some st
      else if is_name_start c then
        Some (XmlState stk (InAttrName name attrs (String c "")))
      else if Ascii.eqb c ">" then Some (XmlState (name :: stk) (InText 0))
      else if Ascii.eqb c "/" then Some (XmlState stk InEmptyEnd)
      else None
  | InAttrName name attrs attr =>
      if is_name_char c then
        Some (XmlState stk (InAttrName name attrs (snoc attr c)))
      else if is_space c then Some (XmlState stk (InAttrNameEnd name attrs attr))
      else if Ascii.eqb c "=" then
        if existsb (String.eqb attr) attrs then None
        else Some (XmlState stk (InAttrEq name (attr :: attrs)))
      else None
  | InAttrNameEnd name attrs attr =>
      if is_space c then Some st
      else if Ascii.eqb c "=" then
        if existsb (String.eqb attr) attrs then None
        else Some (XmlState stk (InAttrEq name (attr :: attrs)))
      else None
  | InAttrEq name attrs =>
      if is_space c then Some st
      else if Ascii.eqb c dq_char || Ascii.eqb c "'" then
        Some (XmlState stk (InAttrValue name attrs c))
      else None
  | InAttrValue name attrs quote =>
      if Ascii.eqb c quote then Some (XmlState stk (InAttrEnd name attrs))
      else if Ascii.eqb c "<" then None
      else if Ascii.eqb c "&" then
        Some (XmlState stk (InAttrReference name attrs quote ""))
      else Some st
  | InAttrReference name attrs quote acc =>
      if Ascii.eqb c ";" then
        if valid_reference acc
        then Some (XmlState stk (InAttrValue name attrs quote))
        else None
      else if is_name_char c || Ascii.eqb c "#" then
        Some (XmlState stk (InAttrReference name attrs quote (snoc acc c)))
      else None
  | InAttrEnd name attrs =>
      if is_space c then Some (XmlState stk (InAttrGap name attrs))
      else if Ascii.eqb c ">" then Some (XmlState (name :: stk) (InText 0))
      else if Ascii.eqb c "/" then Some (XmlState stk InEmptyEnd)
      else None
  | InEmptyEnd =>
      if Ascii.eqb c ">" then Some (XmlState stk (InText 0)) else None
  | InEndName name =>
      if Ascii.eqb c ">" then
        match stk with
        | top :: below =>
            if String.eqb top name
            then Some (XmlState below (InText 0)) else None
        | [] => None
        end
      else if is_name_char c then Some (XmlState stk (InEndName (snoc name c)))
      else if is_space c then
        match name with
        | EmptyString => None
        | _ => Some (XmlState stk (InEndGap name))
        end
      else None
  | InEndGap name =>
      if Ascii.eqb c ">" then
        match stk with
        | top :: below =>
            if String.eqb top name
            then Some (XmlState below (InText 0)) else None
        | [] => None
        end
      else if is_space c then Some st
      else None
  end.

Fixpoint xml_run (st : xml_state) (s : string) : option xml_state :=
  match s with
  | EmptyString => Some st
  | String c rest =>
      match xml_step st c with
      | Some st' => xml_run st' rest
      | None => None
      end
  end.

(** The characters XML 1.0 excludes, in a string held UTF-8 encoded: the
    control characters other than tab, newline and carriage return, and
    the code points U+FFFE and U+FFFF, written EF BF BE and EF BF BF. *)
Definition xml_char_ok (c : ascii) : bool :=
  negb (in_range 0 8 c || in_range 11 12 c || in_range 14 31 c).

Definition is_noncharacter (c : ascii) (rest : string) : bool :=
  Ascii.eqb c "239"
    && match rest with
       | String d rest' =>
           Ascii.eqb d "191"
             && match rest' with
                | String e _ => Ascii.eqb e "190" || Ascii.eqb e "191"
                | EmptyString => false
                end
       | EmptyString => false
       end.

Fixpoint xml_chars (s : string) : bool :=
  match s with
  | EmptyString => true
  | String c rest =>
      xml_char_ok c && negb (is_noncharacter c rest) && xml_chars rest
  end.

Definition well_formed (s : string) : bool :=
  xml_chars s
    && match xml_run (XmlState [] (InText 0)) s with
       | Some (XmlState [] (InText _)) => true
       | _ => false
       end.

(** A fragment is balanced when, scanned inside any open elements, it
    returns to character data with the same elements open. *)
Definition balanced (s : string) : Prop :=
  forall (stk : list string) (k : nat),
    exists k' : nat,
      xml_run (XmlState stk (InText k)) s = Some (XmlState stk (InText k')).

(** ** Vocabulary of the properties *)

(** The five characters [html.escape] replaces. *)
Definition is_escapable (c : ascii) : bool :=
  Ascii.eqb c "&" || Ascii.eqb c "<" || Ascii.eqb c ">"
    || Ascii.eqb c dq_char || Ascii.eqb c "'".

(** The entity form of a character: the table of the specification. *)
Definition entity_form (c : ascii) : string :=
  if Ascii.eqb c "&" then "&amp;"
  else if Ascii.eqb c "<" then "&lt;"
  else if Ascii.eqb c ">" then "&gt;"
  else if Ascii.eqb c dq_char then "&quot;"
  else if Ascii.eqb c "'" then "&#x27;"
  else String c "".

(** Escaping as the specification words it: each character replaced by its
    entity form, in one pass. *)
Fixpoint escape_spec (s : string) : string :=
  match s with
  | EmptyString => EmptyString
  | String c rest => entity_form c +:+ escape_spec rest
  end.

Fixpoint string_existsb (p : ascii -> bool) (s : string) : bool :=
  match s with
  | EmptyString => false
  | String c rest => p c || string_existsb p rest
  end.

Definition has_escapable (s : string) : bool := string_existsb is_escapable s.

(** What follows the ampersand in the five entity forms. *)
Definition entity_tails : list string :=
  ["amp;"; "lt;"; "gt;"; "quot;"; "#x27;"].

(** Every escapable character of [s] is an ampersand that starts one of
    the five entity forms. *)
Fixpoint only_entities (s : string) : bool :=
  match s with
  | EmptyString => true
  | String c rest =>
      if is_escapable c then
        Ascii.eqb c "&"
          && existsb (fun tail => String.prefix tail rest) entity_tails
          && only_entities rest
      else only_entities rest
  end.

(** [sub in s] *)
Fixpoint str_contains (sub s : string) : bool :=
  String.prefix sub s
    || match s with
       | EmptyString => false
       | String _ rest => str_contains sub rest
       end.

(** [s.count(sub)] for a non-empty [sub]: occurrences counted left to
    right without overlap; [skip] characters of a counted occurrence are
    still to be passed over. *)
Fixpoint str_count_from (skip : nat) (sub s : string) : nat :=
  match s with
  | EmptyString => 0%nat
  | String _ rest =>
      match skip with
      | S k => str_count_from k sub rest
      | O =>
          if String.prefix sub s
          then S (str_count_from (Nat.pred (String.length sub)) sub rest)
          else str_count_from 0 sub rest
      end
  end.

Definition str_count (sub s : string) : nat := str_count_from 0 sub s.

(** Nodes of a tree that satisfy [p]: how many, whether any, whether all. *)
Fixpoint count_nodes (p : node -> bool) (tok : node) : nat :=
  ((if p tok then 1 else 0) +
   match tok with
   | Heading _ cs | Paragraph cs | Emphasis cs | Strong cs | Link cs _ _
   | BlockQuote cs | MdList _ _ cs | ListItem cs =>
       list_sum (map (count_nodes p) cs)
   | _ => 0
   end)%nat.

Fixpoint node_exists (p : node -> bool) (tok : node) : bool :=
  p tok ||
  match tok with
  | Heading _ cs | Paragraph cs | Emphasis cs | Strong cs | Link cs _ _
  | BlockQuote cs | MdList _ _ cs | ListItem cs =>
      existsb (node_exists p) cs
  | _ => false
  end.

Fixpoint node_forall (p : node -> bool) (tok : node) : bool :=
  p tok &&
  match tok with
  | Heading _ cs | Paragraph cs | Emphasis cs | Strong cs | Link cs _ _
  | BlockQuote cs | MdList _ _ cs | ListItem cs =>
      forallb (node_forall p) cs
  | _ => true
  end.

Definition is_paragraph (tok : node) : bool :=
  match tok with Paragraph _ => true | _ => false end.
Definition is_block_quote (tok : node) : bool :=
  match tok with BlockQuote _ => true | _ => false end.
Definition is_bullet_list (tok : node) : bool :=
  match tok with MdList false _ _ => true | _ => false end.
Definition is_ordered_list (tok : node) : bool :=
  match tok with MdList true _ _ => true | _ => false end.
Definition is_list_item (tok : node) : bool :=
  match tok with ListItem _ => true | _ => false end.

Definition count_paragraphs (doc : list node) : nat :=
  list_sum (map (count_nodes is_paragraph) doc).

(** An image title that holds none of [<], [&] and [>]. *)
Definition markup_free (s : string) : bool :=
  string_forallb
    (fun c => negb (Ascii.eqb c "<" || Ascii.eqb c "&" || Ascii.eqb c ">")) s.

(** A string of characters XML allows that does not begin in the middle
    of a UTF-8 sequence, as no text does. *)
Definition is_continuation (c : ascii) : bool := in_range 128 191 c.

Definition starts_clean (s : string) : bool :=
  match s with
  | EmptyString => true
  | String c _ => negb (is_continuation c)
  end.

Definition xml_text (s : string) : bool := xml_chars s && starts_clean s.

Definition content_xml_text (tok : node) : bool :=
  match tok with
  | Text raw | Codespan raw => xml_text raw
  | BlockCode code _ => xml_text code
  | Image _ _ (Some title) => xml_text title
  | _ => true
  end.

Definition contents_xml_text (doc : list node) : bool :=
  forallb (node_forall content_xml_text) doc.

Definition title_markup_free (tok : node) : bool :=
  match tok with
  | Image _ _ (Some title) => markup_free title
  | _ => true
  end.

Definition titles_markup_free (doc : list node) : bool :=
  forallb (node_forall title_markup_free) doc.

(** The document of the first scenario, [# Title], a blank line,
    [Hello world.], as a token tree. *)
Definition scenario1_source : string :=
  "# Title" +:+ nl +:+ nl +:+ "Hello world.".
Definition scenario1_doc : list node :=
  [Heading 1 [Text "Title"]; Paragraph [Text "Hello world."]].
Definition scenario1_ssml : string :=
  "<speak>Title<break time=" +:+ dq +:+ "300ms" +:+ dq +:+ "/>" +:+ nl
    +:+ "<p>Hello world.<break time=" +:+ dq +:+ "100ms" +:+ dq +:+ "/></p>"
    +:+ nl +:+ "</speak>".

(** ** The command-line driver: [get_ogg] and [main]

    Effects are threaded through a [world]: the files by path, as byte
    strings, and what was printed.  A computation returns or raises; the
    exceptions modelled all derive from Python's [Exception].  Printing
    is taken to succeed. *)

Record exn := Exn { exn_type : string; exn_str : string }.

Record world := World { files : gmap string string; stdout : list string }.

Inductive outcome (A : Type) : Type :=
| Return (a : A)
| Raise (e : exn).
Arguments Return {A} a.
Arguments Raise {A} e.

Definition io (A : Type) : Type := world -> outcome A * world.

Definition ret {A : Type} (a : A) : io A := fun w => (Return a, w).

Definition bind {A B : Type} (m : io A) (k : A -> io B) : io B :=
  fun w =>
    match m w with
    | (Return a, w') => k a w'
    | (Raise e, w') => (Raise e, w')
    end.

Notation "'do' x <- m ; k" := (bind m (fun x => k))
  (at level 10, x name, m at level 100, k at level 200).
Notation "m ;; k" := (bind m (fun _ => k))
  (at level 100, k at level 200, right associativity).

(** The result of a call into an outside library, which changes nothing
    in the world. *)
Definition call {A : Type} (r : outcome A) : io A := fun w => (r, w).

(** [try: body / except Exception as e: handler(e)] *)
Definition try_except {A : Type} (body : io A) (handler : exn -> io A) : io A :=
  fun w =>
    match body w with
    | (Return a, w') => (Return a, w')
    | (Raise e, w') => handler e w'
    end.

Definition print (line : string) : io unit :=
  fun w => (Return tt, World (files w) (stdout w ++ [line])).

(** What the operating system and Python's text layer decide for a run:
    whether an existing file may be opened for reading and whether a path
    may be opened for writing (permissions, missing directories), and,
    for files opened in text mode with [encoding='utf-8'], how the bytes
    read decode to text (with newlines translated) and how the text
    written encodes to bytes.  Each may raise. *)
Record platform := {
  read_denied : string -> option exn;
  decode_text : string -> outcome string;
  write_denied : string -> option exn;
  encode_text : string -> outcome string
}.

(** [with open(path, 'r', encoding='utf-8') as f: f.read()] *)
Definition read_file (os : platform) (path : string) : io string :=
  fun w =>
    match files w !! path with
    | None =>
        (Raise (Exn "FileNotFoundError"
                  ("[Errno 2] No such file or directory: '" +:+ path +:+ "'")),
         w)
    | Some content =>
        match read_denied os path with
        | Some e => (Raise e, w)
        | None => (decode_text os content, w)
        end
    end.

(** [with open(path, 'w', encoding='utf-8') as f: f.write(content)]:
    opening creates or empties the file, and the text is encoded as a
    whole before any byte reaches it. *)
Definition write_file (os : platform) (path content : string) : io unit :=
  fun w =>
    match write_denied os path with
    | Some e => (Raise e, w)
    | None =>
        match encode_text os content with
        | Return bytes =>
            (Return tt, World (<[path := bytes]> (files w)) (stdout w))
        | Raise e => (Raise e, World (<[path := ""]> (files w)) (stdout w))
        end
    end.

(** [with open(path, 'wb') as out: out.write(content)] *)
Definition write_bytes (os : platform) (path content : string) : io unit :=
  fun w =>
    match write_denied os path with
    | Some e => (Raise e, w)
    | None => (Return tt, World (<[path := content]> (files w)) (stdout w))
    end.

(** The [google.cloud.texttospeech] collaborator: building the client and
    the synthesis request may each return or raise. *)
Record VoiceSelectionParams := {
  language_code : string;
  voice_name : string
}.

Inductive AudioEncoding : Type := LINEAR16 | MP3 | OGG_OPUS.

Record AudioConfig := { audio_encoding : AudioEncoding }.

Record texttospeech := {
  TextToSpeechClient : outcome unit;
  synthesize_speech :
    string -> VoiceSelectionParams -> AudioConfig -> outcome string
}.

Definition get_ogg (os : platform) (tts : texttospeech)
    (ssml output_file : string) : io unit :=
  do client <- call (TextToSpeechClient tts);
  let synthesis_input := ssml in
  let voice :=
    {| language_code := "en-US"; voice_name := "en-US-Wavenet-F" |} in
  let audio_config := {| audio_encoding := OGG_OPUS |} in
  try_except
    (do audio_content <-
       call (synthesize_speech tts synthesis_input voice audio_config);
     write_bytes os output_file audio_content;;
     print ("Audio content written to file " +:+ dq +:+ output_file +:+ dq))
    (fun e => print ("Error generating audio: " +:+ exn_str e)).

(** The parsed command line. *)
Record Args := { input_file : string; args_get_ogg : bool }.

Section Main.
Variable base : InheritedRenderer.
(** [mistune]'s parser. *)
Variable parse : string -> list node.
(** [os.path.splitext(path)[0]] *)
Variable splitext_root : string -> string.
Variable os : platform.
Variable tts : texttospeech.

Definition main (args : Args) : io unit :=
  do markdown_input <- read_file os (input_file args);
  let ssml := markdown_to_ssml base parse markdown_input in
  let ssml_file := splitext_root (input_file args) +:+ ".ssml" in
  write_file os ssml_file ssml;;
  print ("SSML content written to file '" +:+ ssml_file +:+ "'");;
  if args_get_ogg args then
    let ogg_file := splitext_root (input_file args) +:+ ".ogg" in
    get_ogg os tts ssml ogg_file
  else ret tt.
End Main.

(** The direct children of a token. *)
Definition children (tok : node) : list node :=
  match tok with
  | Heading _ cs | Paragraph cs | Emphasis cs | Strong cs | Link cs _ _
  | BlockQuote cs | MdList _ _ cs | ListItem cs => cs
  | _ => []
  end.

(** [a] occurs in [s] as a contiguous part. *)
Definition substring_of (a s : string) : Prop :=
  exists l r : string, s = l +:+ a +:+ r.

(** The fixed voice and encoding [get_ogg] asks for. *)
Definition get_ogg_voice : VoiceSelectionParams :=
  {| language_code := "en-US"; voice_name := "en-US-Wavenet-F" |}.
Definition get_ogg_audio_config : AudioConfig :=
  {| audio_encoding := OGG_OPUS |}.

(** A run used to exercise the driver: one Markdown file, a synthesis
    service that refuses the request. *)
Definition failing_tts : texttospeech := {|
  TextToSpeechClient := Return tt;
  synthesize_speech _ _ _ :=
    Raise (Exn "ResourceExhausted" "429 Quota exceeded")
|}.
Definition no_credentials_tts : texttospeech := {|
  TextToSpeechClient :=
    Raise (Exn "DefaultCredentialsError"
             "Your default credentials were not found.");
  synthesize_speech _ _ _ := Return "OggS"
|}.
Definition notes_world : world :=
  World {[ "notes.md" := scenario1_source ]} [].

(** Platforms used to exercise the driver: one on which every file
    operation succeeds and text is stored as it is; one whose input does
    not decode; one that refuses to open any file for writing; one that
    refuses the audio file only. *)
Definition plain_platform : platform := {|
  read_denied _ := None;
  decode_text := Return;
  write_denied _ := None;
  encode_text := Return
|}.
Definition undecodable_platform : platform := {|
  read_denied _ := None;
  decode_text _ :=
    Raise (Exn "UnicodeDecodeError"
             "'utf-8' codec can't decode byte 0xff in position 0");
  write_denied _ := None;
  encode_text := Return
|}.
Definition read_only_platform : platform := {|
  read_denied _ := None;
  decode_text := Return;
  write_denied path :=
    Some (Exn "PermissionError"
            ("[Errno 13] Permission denied: '" +:+ path +:+ "'"));
  encode_text := Return
|}.
Definition no_audio_platform : platform := {|
  read_denied _ := None;
  decode_text := Return;
  write_denied path :=
    if String.eqb path "notes.ogg"
    then Some (Exn "PermissionError"
                 "[Errno 13] Permission denied: 'notes.ogg'")
    else None;
  encode_text := Return
|}.
Definition notes_args : Args :=
  {| input_file := "notes.md"; args_get_ogg := true |}.

(** Documents used to exercise the renderer: an image whose title holds
    an ampersand, a closing tag, an opening paragraph tag; a document of
    tokens the renderer does not override. *)
Definition ampersand_title_doc : list node :=
  [Paragraph [Image "chart.png" "chart" (Some "Sales & Marketing")]].
Definition end_tag_title_doc : list node :=
  [Paragraph [Image "pic.png" "alt" (Some "</p>")]].
Definition p_tag_title_doc : list node :=
  [Paragraph [Image "pic.png" "alt" (Some "<p>")]].
Definition titled_image_doc : list node :=
  [Heading 2 [Text "Results"];
   Paragraph [Text "See "; Image "chart.png" "chart" (Some "Q3 sales");
              Emphasis [Text "a < b & c"]; Linebreak;
              Link [Codespan "x > y"] "http://example.com" None]].
Definition shopping_doc : list node :=
  [MdList false None [ListItem [Text "milk"]; ListItem [Text "eggs"]];
   MdList true (Some 3) [ListItem [Text "third"]];
   BlockQuote [Paragraph [Text "so it goes"]]].

(** A fragment that adds [n] occurrences of the paragraph start tag to
    whatever follows it, none of them shared with what follows. *)
Definition adds_p_tags (s : string) (n : nat) : Prop :=
  forall rest : string,
    str_count "<p>" (s +:+ rest) = (n + str_count "<p>" rest)%nat.

(** An image title without [<]. *)
Definition title_lt_free (tok : node) : bool :=
  match tok with
  | Image _ _ (Some title) =>
      negb (string_existsb (fun c => Ascii.eqb c "<") title)
  | _ => true
  end.

(** A synthesis service that answers every request with the same audio
    bytes, and the names [main] derives from [notes.md]. *)
Definition working_tts : texttospeech := {|
  TextToSpeechClient := Return tt;
  synthesize_speech _ _ _ := Return "OggS-audio"
|}.
Definition notes_root (path : string) : string := "notes".

(** What [main] prints after writing a file. *)
Definition ssml_written (ssml_file : string) : string :=
  "SSML content written to file '" +:+ ssml_file +:+ "'".
Definition audio_written (output_file : string) : string :=
  "Audio content written to file " +:+ dq +:+ output_file +:+ dq.

(** Reading the five entity forms back, used to show that escaping loses
    nothing; the renderer itself has no such step. *)
Fixpoint decode_entities (s : string) : string :=
  match s with
  | EmptyString => EmptyString
  | String c rest =>
      if Ascii.eqb c "&" then
        match rest with
        | String "a" (String "m" (String "p" (String ";" r))) =>
            String "&" (decode_entities r)
        | String "l" (String "t" (String ";" r)) =>
            String "<" (decode_entities r)
        | String "g" (String "t" (String ";" r)) =>
            String ">" (decode_entities r)
        | String "q" (String "u" (String "o" (String "t" (String ";" r)))) =>
            String dq_char (decode_entities r)
        | String "#" (String "x" (String "2" (String "7" (String ";" r)))) =>
            String "'" (decode_entities r)
        | _ => String c (decode_entities rest)
        end
      else String c (decode_entities rest)
  end.

(** Occurrences of a character in a string. *)
Fixpoint count_char (c : ascii) (s : string) : nat :=
  match s with
  | EmptyString => 0%nat
  | String x rest =>
      ((if Ascii.eqb x c then 1 else 0) + count_char c rest)%nat
  end.

(** A token tree with everything the rules do not write blanked out:
    image sources and alternative texts, link targets and titles, code
    block annotations. *)
Fixpoint erase_unrendered (tok : node) : node :=
  match tok with
  | Heading level cs => Heading level (map erase_unrendered cs)
  | Paragraph cs => Paragraph (map erase_unrendered cs)
  | Emphasis cs => Emphasis (map erase_unrendered cs)
  | Strong cs => Strong (map erase_unrendered cs)
  | Linebreak => Linebreak
  | ThematicBreak => ThematicBreak
  | Image _ _ title => Image "" "" title
  | Link cs _ _ => Link (map erase_unrendered cs) "" None
  | Text raw => Text raw
  | Codespan raw => Codespan raw
  | BlockCode code _ => BlockCode code None
  | BlockQuote cs => BlockQuote (map erase_unrendered cs)
  | MdList ordered start cs => MdList ordered start (map erase_unrendered cs)
  | ListItem cs => ListItem (map erase_unrendered cs)
  end.

(** A token tree with every link replaced by its children and every code
    span by a text token. *)
Fixpoint unlink (tok : node) : list node :=
  match tok with
  | Heading level cs => [Heading level (flat_map unlink cs)]
  | Paragraph cs => [Paragraph (flat_map unlink cs)]
  | Emphasis cs => [Emphasis (flat_map unlink cs)]
  | Strong cs => [Strong (flat_map unlink cs)]
  | Link cs _ _ => flat_map unlink cs
  | Codespan raw => [Text raw]
  | BlockQuote cs => [BlockQuote (flat_map unlink cs)]
  | MdList ordered start cs => [MdList ordered start (flat_map unlink cs)]
  | ListItem cs => [ListItem (flat_map unlink cs)]
  | _ => [tok]
  end.

Definition is_link_or_codespan (tok : node) : bool :=
  match tok with Link _ _ _ | Codespan _ => true | _ => false end.

(** A fragment that adds [n] occurrences of [sub] to whatever follows it,
    none of them shared with what follows. *)
Definition adds_occurrences (sub s : string) (n : nat) : Prop :=
  forall rest : string,
    str_count sub (s +:+ rest) = (n + str_count sub rest)%nat.

(** The tokens whose rule writes a pause. *)
Definition is_pause (tok : node) : bool :=
  match tok with
  | Heading _ _ | Paragraph _ | Linebreak | ThematicBreak => true
  | _ => false
  end.

Definition count_pauses (doc : list node) : nat :=
  list_sum (map (count_nodes is_pause) doc).

(** * Properties *)

(** ** Strings *)

Lemma str_app_assoc (a b c : string) : (a +:+ b) +:+ c = a +:+ (b +:+ c).
Proof. induction a as [|x a IH]; simpl; [reflexivity | now rewrite IH]. Qed.

Lemma str_app_nil_r (a : string) : a +:+ "" = a.
Proof. induction a as [|x a IH]; simpl; [reflexivity | now rewrite IH]. Qed.

Lemma str_length_app (a b : string) :
  String.length (a +:+ b) = (String.length a + String.length b)%nat.
Proof. induction a as [|x a IH]; simpl; [reflexivity | now rewrite IH]. Qed.

Lemma prefix_nil (s : string) : String.prefix "" s = true.
Proof. now destruct s. Qed.

Lemma prefix_app (a b : string) : String.prefix a (a +:+ b) = true.
Proof.
  induction a as [|x a IH]; simpl; [apply prefix_nil |].
  destruct (ascii_dec x x); [exact IH | congruence].
Qed.

Lemma string_forallb_app (p : ascii -> bool) (a b : string) :
  string_forallb p (a +:+ b) = string_forallb p a && string_forallb p b.
Proof.
  induction a as [|x a IH]; simpl; [reflexivity |].
  now rewrite IH, andb_assoc.
Qed.

Lemma string_existsb_app (p : ascii -> bool) (a b : string) :
  string_existsb p (a +:+ b) = string_existsb p a || string_existsb p b.
Proof.
  induction a as [|x a IH]; simpl; [reflexivity |].
  now rewrite IH, orb_assoc.
Qed.

Lemma str_join_app (xs ys : list string) :
  str_join (xs ++ ys) = str_join xs +:+ str_join ys.
Proof.
  induction xs as [|x xs IH]; simpl; [reflexivity |].
  now rewrite IH, str_app_assoc.
Qed.

(** ** Escaping *)

Lemma str_replace_app (old : ascii) (new a b : string) :
  str_replace old new (a +:+ b)
  = str_replace old new a +:+ str_replace old new b.
Proof.
  induction a as [|x a IH]; simpl; [reflexivity |].
  destruct (Ascii.eqb x old); rewrite IH; simpl;
    [now rewrite str_app_assoc | reflexivity].
Qed.

Lemma str_replace_absent (old : ascii) (new s : string) :
  string_existsb (fun c => Ascii.eqb c old) s = false ->
  str_replace old new s = s.
Proof.
  induction s as [|x s IH]; simpl; [reflexivity |].
  intros H. apply orb_false_elim in H as [Hx Hs].
  now rewrite Hx, IH.
Qed.

Lemma html_escape_app (a b : string) :
  html_escape (a +:+ b) = html_escape a +:+ html_escape b.
Proof. unfold html_escape. now rewrite !str_replace_app. Qed.

Lemma html_escape_char (c : ascii) :
  html_escape (String c "") = entity_form c.
Proof. destruct c as [[] [] [] [] [] [] [] []]; reflexivity. Qed.

(** The five replacements of [html.escape] amount to one pass that writes
    each character's entity form. *)
Lemma html_escape_spec (s : string) : html_escape s = escape_spec s.
Proof.
  induction s as [|c s IH]; [reflexivity |].
  change (String c s) with (String c "" +:+ s).
  rewrite html_escape_app, html_escape_char, IH. reflexivity.
Qed.

Ltac is_entity :=
  right; split;
    [reflexivity | eexists; split; [| reflexivity]; simpl; tauto].

Lemma entity_form_cases (c : ascii) :
  (is_escapable c = false /\ entity_form c = String c "")
  \/ (is_escapable c = true
      /\ exists tail, In tail entity_tails /\ entity_form c = String "&" tail).
Proof.
  unfold is_escapable, entity_form, entity_tails.
  destruct (Ascii.eqb c "&");
    [is_entity |].
  destruct (Ascii.eqb c "<");
    [is_entity |].
  destruct (Ascii.eqb c ">");
    [is_entity |].
  destruct (Ascii.eqb c dq_char);
    [is_entity |].
  destruct (Ascii.eqb c "'");
    [is_entity |].
  left. split; reflexivity.
Qed.

Lemma entity_tail_plain (tail : string) :
  In tail entity_tails -> has_escapable tail = false.
Proof.
  unfold entity_tails. simpl.
  intros [<- | [<- | [<- | [<- | [<- | []]]]]]; reflexivity.
Qed.

Lemma only_entities_plain_app (a b : string) :
  has_escapable a = false -> only_entities (a +:+ b) = only_entities b.
Proof.
  unfold has_escapable.
  induction a as [|x a IH]; simpl; [reflexivity |].
  intros H. apply orb_false_elim in H as [Hx Ha].
  rewrite Hx. now apply IH.
Qed.

Lemma only_entities_escape_spec (s : string) :
  only_entities (escape_spec s) = true.
Proof.
  induction s as [|c s IH]; [reflexivity |].
  simpl. destruct (entity_form_cases c) as [[Hc ->] | [_ (tail & Hin & ->)]].
  - simpl. now rewrite Hc.
  - cbn [String.append only_entities is_escapable Ascii.eqb Bool.eqb orb andb].
    rewrite (only_entities_plain_app _ _ (entity_tail_plain _ Hin)), IH.
    rewrite andb_true_r. apply existsb_exists.
    exists tail. split; [exact Hin | apply prefix_app].
Qed.

(** The four escapable characters other than the ampersand. *)
Lemma entity_form_no_raw (c : ascii) :
  string_existsb
    (fun x => Ascii.eqb x "<" || Ascii.eqb x ">" || Ascii.eqb x dq_char
                || Ascii.eqb x "'")
    (entity_form c) = false.
Proof. destruct c as [[] [] [] [] [] [] [] []]; reflexivity. Qed.

Lemma escape_spec_no_raw (s : string) :
  string_existsb
    (fun x => Ascii.eqb x "<" || Ascii.eqb x ">" || Ascii.eqb x dq_char
                || Ascii.eqb x "'")
    (escape_spec s) = false.
Proof.
  induction s as [|c s IH]; [reflexivity |].
  simpl. now rewrite string_existsb_app, entity_form_no_raw, IH.
Qed.

Lemma string_existsb_weaken (p q : ascii -> bool) (s : string) :
  (forall c, q c = true -> p c = true) ->
  string_existsb p s = false -> string_existsb q s = false.
Proof.
  intros Hpq. induction s as [|x s IH]; simpl; [reflexivity |].
  intros H. apply orb_false_elim in H as [Hx Hs].
  rewrite (IH Hs), orb_false_r.
  destruct (q x) eqn:Hq; [| reflexivity].
  now rewrite (Hpq _ Hq) in Hx.
Qed.

(** Escaping an escaped string only rewrites its ampersands. *)
Lemma html_escape_twice (s : string) :
  html_escape (html_escape s) = str_replace "&" "&amp;" (html_escape s).
Proof.
  unfold html_escape at 1.
  set (t := str_replace "&" "&amp;" (html_escape s)).
  assert (Ht : string_existsb
    (fun x => Ascii.eqb x "<" || Ascii.eqb x ">" || Ascii.eqb x dq_char
                || Ascii.eqb x "'") t = false).
  { subst t. rewrite (html_escape_spec s).
    generalize (escape_spec_no_raw s).
    induction (escape_spec s) as [|x u IH]; simpl; [reflexivity |].
    intros H. apply orb_false_elim in H as [Hx Hu].
    destruct (Ascii.eqb x "&") eqn:Ha.
    - simpl. now apply IH.
    - simpl. now rewrite Hx, IH. }
  rewrite (str_replace_absent "<"), (str_replace_absent ">"),
    (str_replace_absent dq_char), (str_replace_absent "'"); try reflexivity;
    (eapply string_existsb_weaken; [| exact Ht]);
    intros c Hc; cbv beta; rewrite Hc; now rewrite ?orb_true_r.
Qed.

Lemma entity_form_length (c : ascii) :
  is_escapable c = true -> (1 < String.length (entity_form c))%nat.
Proof.
  destruct c as [[] [] [] [] [] [] [] []]; simpl;
    try discriminate; intros _; lia.
Qed.

Lemma escape_spec_length (s : string) :
  (String.length s <= String.length (escape_spec s))%nat
  /\ (has_escapable s = true ->
      String.length s < String.length (escape_spec s))%nat.
Proof.
  unfold has_escapable.
  induction s as [|c s [IHle IHlt]]; simpl; [split; [lia | discriminate] |].
  rewrite str_length_app.
  destruct (entity_form_cases c) as [[Hc Hf] | [Hc _]].
  - rewrite Hf, Hc. simpl. split; [lia |]. intros H. specialize (IHlt H). lia.
  - pose proof (entity_form_length c Hc). split; [lia |]. intros _. lia.
Qed.

Lemma escape_spec_has_escapable (s : string) :
  has_escapable s = true -> has_escapable (escape_spec s) = true.
Proof.
  unfold has_escapable.
  induction s as [|c s IH]; simpl; [discriminate |].
  rewrite string_existsb_app.
  destruct (entity_form_cases c) as [[Hc Hf] | [Hc (tail & _ & Hf)]].
  - rewrite Hc, Hf. simpl. rewrite Hc. simpl. exact IH.
  - intros _. rewrite Hf. reflexivity.
Qed.

(** ** The renderer's rules *)

(** C3. A heading renders as its text, then a break whose duration is
    300ms, 200ms, 100ms or 0ms for levels 1 to 4 and 0ms for every other
    level, then a newline. *)
Theorem heading_break_table (T : string) (L : Z) :
  heading T L
  = T +:+ "<break time=" +:+ dq
      +:+ match L with
          | 1 => "300ms"
          | 2 => "200ms"
          | 3 => "100ms"
          | 4 => "0ms"
          | _ => "0ms"
          end
      +:+ dq +:+ "/>" +:+ nl.
Proof.
  unfold heading, dict_get, BREAK_TIMES.
  destruct (decide (L = 1)) as [-> | H1]; [reflexivity |].
  destruct (decide (L = 2)) as [-> | H2]; [reflexivity |].
  destruct (decide (L = 3)) as [-> | H3]; [reflexivity |].
  destruct (decide (L = 4)) as [-> | H4]; [reflexivity |].
  rewrite !lookup_insert_ne, lookup_singleton_ne by congruence.
  destruct L as [|p|p]; [reflexivity | | reflexivity].
  destruct p as [[[p|p|]|[p|p|]|]|[[p|p|]|[p|p|]|]|];
    try reflexivity; congruence.
Qed.

(** C4. The fragment of a plain-text node is its content with each of
    the five escapable characters written as its entity form; in it every
    escapable character is an ampersand opening one of those forms, and
    none of the other four characters occurs. *)
Theorem text_only_entities (raw : string) :
  text raw = escape_spec raw
  /\ only_entities (text raw) = true
  /\ string_existsb
       (fun x => Ascii.eqb x "<" || Ascii.eqb x ">" || Ascii.eqb x dq_char
                   || Ascii.eqb x "'")
       (text raw) = false.
Proof.
  unfold text. rewrite html_escape_spec.
  split; [reflexivity |].
  split; [apply only_entities_escape_spec | apply escape_spec_no_raw].
Qed.

(** C5. An image renders as "image of " followed by its title when the
    title is present and not empty, and as the empty string otherwise;
    the source and the alternative text do not influence the fragment. *)
Theorem image_title_only (src alt : string) (title : option string) :
  image src alt title
  = match title with
    | Some t => if String.eqb t "" then "" else "image of " +:+ t
    | None => ""
    end
  /\ forall src' alt' : string, image src' alt' title = image src alt title.
Proof.
  split; [| reflexivity].
  destruct title as [[|c t]|]; reflexivity.
Qed.

(** C7. On a string that holds an escapable character, escaping twice
    differs from escaping once: the second pass rewrites the ampersand of
    every entity and nothing else, which makes the result longer. *)
Theorem text_not_idempotent (s : string) :
  has_escapable s = true ->
  text (text s) <> text s
  /\ text (text s) = str_replace "&" "&amp;" (text s)
  /\ (String.length (text s) < String.length (text (text s)))%nat.
Proof.
  intros Hs. unfold text.
  assert (Hlen : (String.length (html_escape s)
                  < String.length (html_escape (html_escape s)))%nat).
  { rewrite (html_escape_spec (html_escape s)).
    apply escape_spec_length.
    rewrite html_escape_spec. now apply escape_spec_has_escapable. }
  split; [| split; [apply html_escape_twice | exact Hlen]].
  intros Heq. rewrite Heq in Hlen. lia.
Qed.

Lemma text_not_idempotent_witness :
  text (text "a<b") <> text "a<b"
  /\ text (text "a<b") = str_replace "&" "&amp;" (text "a<b")
  /\ (String.length (text "a<b") < String.length (text (text "a<b")))%nat.
Proof. apply (text_not_idempotent "a<b"). reflexivity. Defined.

(** C8. A code span renders exactly as plain text does, the escaped
    content with no markup around it, and a code block renders the same
    whatever its info annotation is. *)
Theorem code_rendered_as_text :
  (forall s : string, codespan s = text s /\ codespan s = html_escape s)
  /\ (forall (c : string) (info info' : option string),
        block_code c info = block_code c info'
        /\ block_code c info = html_escape c).
Proof. split; intros; split; reflexivity. Qed.

(** C2. When the parser reads the source of the first scenario as a
    level-1 heading "Title" followed by a paragraph "Hello world.", the
    translation is exactly the scenario's SSML; in general the output is
    the rendered fragments between [<speak>] and [</speak>], with nothing
    added. *)
Theorem markdown_to_ssml_scenario1
    (base : InheritedRenderer) (parse : string -> list node) :
  parse scenario1_source = scenario1_doc ->
  markdown_to_ssml base parse scenario1_source = scenario1_ssml
  /\ forall src : string,
       markdown_to_ssml base parse src
       = "<speak>" +:+ str_join (map (render_token base) (parse src))
           +:+ "</speak>".
Proof.
  intros Hparse. split; [| reflexivity].
  unfold markdown_to_ssml. rewrite Hparse. reflexivity.
Qed.

Lemma markdown_to_ssml_scenario1_witness :
  markdown_to_ssml mistune_HTMLRenderer (fun _ => scenario1_doc)
    scenario1_source
  = scenario1_ssml.
Proof.
  apply (markdown_to_ssml_scenario1 mistune_HTMLRenderer
           (fun _ => scenario1_doc)).
  reflexivity.
Defined.

(** ** Induction over token trees *)

Lemma node_induction (P : node -> Prop) :
  (forall tok, Forall P (children tok) -> P tok) -> forall tok, P tok.
Proof.
  intros step. fix IH 1. intros tok. apply step.
  destruct tok; simpl;
    match goal with
    | |- Forall P [] => constructor
    | |- Forall P ?cs => induction cs; constructor; auto
    end.
Qed.

Lemma node_exists_children (p : node -> bool) (tok : node) :
  node_exists p tok = p tok || existsb (node_exists p) (children tok).
Proof. destruct tok; reflexivity. Qed.

Lemma node_forall_children (p : node -> bool) (tok : node) :
  node_forall p tok = p tok && forallb (node_forall p) (children tok).
Proof. destruct tok; simpl; rewrite ?andb_true_r; reflexivity. Qed.

Lemma count_nodes_children (p : node -> bool) (tok : node) :
  count_nodes p tok
  = ((if p tok then 1 else 0)
     + list_sum (map (count_nodes p) (children tok)))%nat.
Proof. destruct tok; reflexivity. Qed.

(** ** Substrings *)

Lemma substring_of_refl (a : string) : substring_of a a.
Proof. exists "", "". simpl. now rewrite str_app_nil_r. Qed.

Lemma substring_of_app_r (a s y : string) :
  substring_of a s -> substring_of a (s +:+ y).
Proof.
  intros (l & r & ->). exists l, (r +:+ y).
  now rewrite !str_app_assoc.
Qed.

Lemma substring_of_app_l (a x s : string) :
  substring_of a s -> substring_of a (x +:+ s).
Proof.
  intros (l & r & ->). exists (x +:+ l), r.
  now rewrite !str_app_assoc.
Qed.

Lemma substring_of_trans (a b c : string) :
  substring_of a b -> substring_of b c -> substring_of a c.
Proof.
  intros (l & r & ->) (l' & r' & ->).
  exists (l' +:+ l), (r +:+ r'). now rewrite !str_app_assoc.
Qed.

Lemma substring_of_join (f : node -> string) (c : node) (cs : list node) :
  In c cs -> substring_of (f c) (str_join (map f cs)).
Proof.
  induction cs as [|x cs IH]; simpl; [tauto |].
  intros [-> | Hin].
  - apply substring_of_app_r, substring_of_refl.
  - apply substring_of_app_l, IH, Hin.
Qed.

Lemma str_contains_app_l (a x s : string) :
  str_contains a s = true -> str_contains a (x +:+ s) = true.
Proof.
  intros H. induction x as [|c x IH]; simpl; [exact H |].
  rewrite IH. apply orb_true_r.
Qed.

Lemma str_contains_prefix (a s : string) :
  String.prefix a s = true -> str_contains a s = true.
Proof. intros H. destruct s; cbn [str_contains]; rewrite H; reflexivity. Qed.

Lemma str_contains_substring (a s : string) :
  substring_of a s -> str_contains a s = true.
Proof.
  intros (l & r & ->).
  apply str_contains_app_l, str_contains_prefix, prefix_app.
Qed.

(** ** Tokens the renderer does not override *)

Ltac keep_child H :=
  repeat match goal with
    | |- substring_of _ (str_join _ +:+ _) =>
        apply substring_of_app_r; exact H
    | |- substring_of _ (_ +:+ _) => apply substring_of_app_l
    end.

(** Every rule writes the joined fragments of the children into its own
    fragment. *)
Lemma render_child_kept (tok c : node) :
  In c (children tok) ->
  substring_of (render_token mistune_HTMLRenderer c)
    (render_token mistune_HTMLRenderer tok).
Proof.
  intros Hin.
  destruct tok as [l cs|cs|cs|cs| | |s a t|cs u t|r|r|k i|cs|o st cs|cs];
    simpl in Hin; try contradiction;
    pose proof (substring_of_join (render_token mistune_HTMLRenderer) c cs Hin)
      as H;
    cbn [render_token];
    cbv [heading paragraph emphasis strong link block_quote render_list
         list_item mistune_HTMLRenderer];
    try exact H; try (keep_child H; fail).
  destruct o, st; keep_child H.
Qed.

Lemma node_exists_rendered (p : node -> bool) (tok : node) :
  node_exists p tok = true ->
  exists n, p n = true
    /\ substring_of (render_token mistune_HTMLRenderer n)
         (render_token mistune_HTMLRenderer tok).
Proof.
  induction tok as [tok IH] using node_induction.
  rewrite node_exists_children. intros H.
  apply orb_true_iff in H as [Hp | Hex].
  - exists tok. split; [exact Hp | apply substring_of_refl].
  - apply existsb_exists in Hex as (c & Hin & Hc).
    rewrite List.Forall_forall in IH.
    destruct (IH c Hin Hc) as (n & Hn & Hsub).
    exists n. split; [exact Hn |].
    eapply substring_of_trans; [exact Hsub | now apply render_child_kept].
Qed.

Lemma doc_exists_rendered (p : node -> bool) (doc : list node) :
  existsb (node_exists p) doc = true ->
  exists n, p n = true
    /\ substring_of (render_token mistune_HTMLRenderer n)
         (render_tokens mistune_HTMLRenderer doc).
Proof.
  intros H. apply existsb_exists in H as (c & Hin & Hc).
  destruct (node_exists_rendered p c Hc) as (n & Hn & Hsub).
  exists n. split; [exact Hn |].
  eapply substring_of_trans; [exact Hsub |].
  now apply substring_of_join.
Qed.

Lemma inherited_fragment (n : node) :
  (is_bullet_list n = true ->
   substring_of ("<ul>" +:+ nl) (render_token mistune_HTMLRenderer n)
   /\ substring_of ("</ul>" +:+ nl) (render_token mistune_HTMLRenderer n))
  /\ (is_ordered_list n = true ->
      substring_of "<ol" (render_token mistune_HTMLRenderer n)
      /\ substring_of ("</ol>" +:+ nl) (render_token mistune_HTMLRenderer n))
  /\ (is_list_item n = true ->
      substring_of "<li>" (render_token mistune_HTMLRenderer n)
      /\ substring_of ("</li>" +:+ nl) (render_token mistune_HTMLRenderer n))
  /\ (is_block_quote n = true ->
      substring_of ("<blockquote>" +:+ nl)
        (render_token mistune_HTMLRenderer n)
      /\ substring_of ("</blockquote>" +:+ nl)
           (render_token mistune_HTMLRenderer n)).
Proof.
  repeat split; destruct n as [| | | | | | | | | | |cs|o st cs|cs];
    try discriminate; try (destruct o; discriminate);
    cbn [render_token];
    cbv [block_quote render_list list_item mistune_HTMLRenderer].
  all: try (destruct o; [discriminate |]); try (destruct o; [| discriminate]).
  all: set (kids := str_join _).
  - exists "", (kids +:+ "</ul>" +:+ nl). now rewrite ?str_app_assoc.
  - exists ("<ul>" +:+ nl +:+ kids), "".
    now rewrite ?str_app_assoc, str_app_nil_r.
  - destruct st as [k|].
    + exists "", (" start=" +:+ dq +:+ str_int k +:+ dq +:+ ">" +:+ nl
                    +:+ kids +:+ "</ol>" +:+ nl).
      now rewrite ?str_app_assoc.
    + exists "", (">" +:+ nl +:+ kids +:+ "</ol>" +:+ nl).
      now rewrite ?str_app_assoc.
  - destruct st as [k|].
    + exists ("<ol" +:+ " start=" +:+ dq +:+ str_int k +:+ dq +:+ ">" +:+ nl
                +:+ kids), "".
      now rewrite ?str_app_assoc, str_app_nil_r.
    + exists ("<ol" +:+ ">" +:+ nl +:+ kids), "".
      now rewrite ?str_app_assoc, str_app_nil_r.
  - exists "", (kids +:+ "</li>" +:+ nl). now rewrite ?str_app_assoc.
  - exists ("<li>" +:+ kids), "". now rewrite ?str_app_assoc, str_app_nil_r.
  - exists "", (kids +:+ "</blockquote>" +:+ nl). now rewrite ?str_app_assoc.
  - exists ("<blockquote>" +:+ nl +:+ kids), "".
    now rewrite ?str_app_assoc, str_app_nil_r.
Qed.

(** C10. With the renderings [mistune.HTMLRenderer] gives them, a bullet
    list, an ordered list, a list item or a block quote anywhere in the
    document leaves its HTML tags in the output, between [<speak>] and
    [</speak>]: the fragment of such a node is the inherited method's,
    and no rule above it drops the fragments of its children. *)
Theorem inherited_markup_in_output
    (parse : string -> list node) (src : string) :
  exists body : string,
    markdown_to_ssml mistune_HTMLRenderer parse src
    = "<speak>" +:+ body +:+ "</speak>"
    /\ (existsb (node_exists is_bullet_list) (parse src) = true ->
        str_contains "<ul>" body = true /\ str_contains "</ul>" body = true)
    /\ (existsb (node_exists is_ordered_list) (parse src) = true ->
        str_contains "<ol" body = true /\ str_contains "</ol>" body = true)
    /\ (existsb (node_exists is_list_item) (parse src) = true ->
        str_contains "<li>" body = true /\ str_contains "</li>" body = true)
    /\ (existsb (node_exists is_block_quote) (parse src) = true ->
        str_contains "<blockquote>" body = true
        /\ str_contains "</blockquote>" body = true).
Proof.
  exists (render_tokens mistune_HTMLRenderer (parse src)).
  split; [reflexivity |].
  split; [| split; [| split]]; intros Hex;
    destruct (doc_exists_rendered _ _ Hex) as (n & Hn & Hsub);
    destruct (inherited_fragment n) as (Hul & Hol & Hli & Hbq);
    [ destruct (Hul Hn) as [Ha Hb] | destruct (Hol Hn) as [Ha Hb]
    | destruct (Hli Hn) as [Ha Hb] | destruct (Hbq Hn) as [Ha Hb] ];
    (split; apply str_contains_substring;
     (eapply substring_of_trans; [| exact Hsub]);
     [ first [ exact Ha
             | (eapply substring_of_trans; [| exact Ha]);
               apply substring_of_app_r, substring_of_refl ]
     | first [ exact Hb
             | (eapply substring_of_trans; [| exact Hb]);
               apply substring_of_app_r, substring_of_refl ] ]).
Qed.

Lemma inherited_markup_in_output_witness :
  exists body : string,
    markdown_to_ssml mistune_HTMLRenderer (fun _ => shopping_doc) "- milk"
    = "<speak>" +:+ body +:+ "</speak>"
    /\ (str_contains "<ul>" body = true /\ str_contains "</ul>" body = true)
    /\ (str_contains "<ol" body = true /\ str_contains "</ol>" body = true)
    /\ (str_contains "<li>" body = true /\ str_contains "</li>" body = true)
    /\ (str_contains "<blockquote>" body = true
        /\ str_contains "</blockquote>" body = true).
Proof.
  destruct (inherited_markup_in_output (fun _ => shopping_doc) "- milk")
    as (body & Hout & Hul & Hol & Hli & Hbq).
  exists body.
  split; [exact Hout |].
  split; [apply Hul; reflexivity |].
  split; [apply Hol; reflexivity |].
  split; [apply Hli; reflexivity | apply Hbq; reflexivity].
Defined.

(** ** Image titles are written unescaped *)

(** C1, at the failing inputs. An image title goes into the fragment as
    it is: with an ampersand or a closing tag in the title, the rendered
    document is not well-formed XML. *)
Theorem image_title_breaks_well_formedness :
  render_tokens mistune_HTMLRenderer ampersand_title_doc
  = "<p>image of Sales & Marketing<break time=" +:+ dq +:+ "100ms" +:+ dq
      +:+ "/></p>" +:+ nl
  /\ well_formed (render_tokens mistune_HTMLRenderer ampersand_title_doc)
     = false
  /\ well_formed
       (markdown_to_ssml mistune_HTMLRenderer (fun _ => ampersand_title_doc)
          "![chart](chart.png)")
     = false
  /\ render_tokens mistune_HTMLRenderer end_tag_title_doc
     = "<p>image of </p><break time=" +:+ dq +:+ "100ms" +:+ dq
         +:+ "/></p>" +:+ nl
  /\ well_formed (render_tokens mistune_HTMLRenderer end_tag_title_doc)
     = false.
Proof. repeat split; vm_compute; reflexivity. Qed.

(** C6, at the failing input. One paragraph whose image is titled [<p>]
    renders with two paragraph start tags. *)
Theorem image_title_adds_p_tag :
  count_paragraphs p_tag_title_doc = 1%nat
  /\ markdown_to_ssml mistune_HTMLRenderer (fun _ => p_tag_title_doc)
       "![alt](pic.png)"
     = "<speak><p>image of <p><break time=" +:+ dq +:+ "100ms" +:+ dq
         +:+ "/></p>" +:+ nl +:+ "</speak>"
  /\ str_count "<p>"
       (markdown_to_ssml mistune_HTMLRenderer (fun _ => p_tag_title_doc)
          "![alt](pic.png)")
     = 2%nat.
Proof. repeat split; vm_compute; reflexivity. Qed.

(** ** Well-formedness of the rendering when titles hold no markup *)

Lemma xml_run_app (st : xml_state) (a b : string) :
  xml_run st (a +:+ b)
  = match xml_run st a with
    | Some st' => xml_run st' b
    | None => None
    end.
Proof.
  revert st. induction a as [|c a IH]; intros st; simpl; [reflexivity |].
  destruct (xml_step st c); [apply IH | reflexivity].
Qed.

Ltac scan_literal := intros ? ?; eexists; reflexivity.

Lemma balanced_nil : balanced "".
Proof. scan_literal. Qed.

Lemma balanced_app (a b : string) :
  balanced a -> balanced b -> balanced (a +:+ b).
Proof.
  intros Ha Hb stk k. destruct (Ha stk k) as [k1 H1].
  destruct (Hb stk k1) as [k2 H2]. exists k2.
  now rewrite xml_run_app, H1.
Qed.

Lemma balanced_join (parts : list string) :
  Forall balanced parts -> balanced (str_join parts).
Proof.
  induction 1 as [|x xs Hx _ IH]; simpl;
    [apply balanced_nil | now apply balanced_app].
Qed.

Lemma balanced_plain (s : string) : markup_free s = true -> balanced s.
Proof.
  unfold markup_free.
  induction s as [|c s IH]; cbn [string_forallb]; intros H stk k;
    [eexists; reflexivity |].
  apply andb_true_iff in H as [Hc Hs].
  apply negb_true_iff, orb_false_elim in Hc as [Hc Hgt].
  apply orb_false_elim in Hc as [Hlt Hamp].
  cbn [xml_run]. unfold xml_step. cbn [mode open_elems].
  rewrite Hlt, Hamp, Hgt. destruct (Ascii.eqb c "]"); now apply IH.
Qed.

Lemma balanced_entity_form (c : ascii) : balanced (entity_form c).
Proof. destruct c as [[] [] [] [] [] [] [] []]; scan_literal. Qed.

Lemma balanced_escape (s : string) : balanced (html_escape s).
Proof.
  rewrite html_escape_spec.
  induction s as [|c s IH]; simpl; [apply balanced_nil |].
  apply balanced_app; [apply balanced_entity_form | exact IH].
Qed.

(** An element: a start tag that opens [name], balanced content, the end
    tag that closes it. *)
Lemma balanced_element (name start_tag end_tag body : string) :
  (forall stk k, xml_run (XmlState stk (InText k)) start_tag
                 = Some (XmlState (name :: stk) (InText 0))) ->
  (forall stk k, xml_run (XmlState (name :: stk) (InText k)) end_tag
                 = Some (XmlState stk (InText 0))) ->
  balanced body ->
  balanced (start_tag +:+ body +:+ end_tag).
Proof.
  intros Hstart Hend Hbody stk k.
  destruct (Hbody (name :: stk) 0%nat) as [k1 H1]. exists 0%nat.
  now rewrite xml_run_app, Hstart, xml_run_app, H1, Hend.
Qed.

Lemma break_time_cases (level : Z) :
  In (dict_get BREAK_TIMES level "0ms") ["300ms"; "200ms"; "100ms"; "0ms"].
Proof.
  unfold dict_get, BREAK_TIMES.
  destruct (decide (level = 1)) as [-> | H1]; [simpl; tauto |].
  destruct (decide (level = 2)) as [-> | H2]; [simpl; tauto |].
  destruct (decide (level = 3)) as [-> | H3]; [simpl; tauto |].
  destruct (decide (level = 4)) as [-> | H4]; [simpl; tauto |].
  rewrite !lookup_insert_ne, lookup_singleton_ne by congruence.
  simpl; tauto.
Qed.

Lemma balanced_break (duration : string) :
  In duration ["300ms"; "200ms"; "100ms"; "0ms"; "400ms"; "600ms"] ->
  balanced ("<break time=" +:+ dq +:+ duration +:+ dq +:+ "/>" +:+ nl).
Proof.
  simpl. intros [<- | [<- | [<- | [<- | [<- | [<- | []]]]]]]; scan_literal.
Qed.

Lemma balanced_heading (t : string) (level : Z) :
  balanced t -> balanced (heading t level).
Proof.
  intros Ht. unfold heading. apply balanced_app; [exact Ht |].
  apply balanced_break.
  pose proof (break_time_cases level) as H. simpl in H |- *. tauto.
Qed.

Lemma balanced_paragraph (t : string) : balanced t -> balanced (paragraph t).
Proof.
  intros Ht.
  replace (paragraph t)
    with (("<p>"
           +:+ (t +:+ "<break time=" +:+ dq +:+ PARAGRAPH_BREAK +:+ dq +:+ "/>")
           +:+ "</p>") +:+ nl)
    by (unfold paragraph; rewrite !str_app_assoc; reflexivity).
  apply balanced_app; [| scan_literal].
  apply (balanced_element "p"); [reflexivity | reflexivity |].
  apply balanced_app; [exact Ht | scan_literal].
Qed.

Lemma balanced_emphasis (t : string) :
  balanced t -> balanced (emphasis t) /\ balanced (strong t).
Proof.
  intros Ht. split; unfold emphasis, strong.
  - replace ("<emphasis level=" +:+ dq +:+ "moderate" +:+ dq +:+ ">" +:+ t
               +:+ "</emphasis>")
      with (("<emphasis level=" +:+ dq +:+ "moderate" +:+ dq +:+ ">")
              +:+ t +:+ "</emphasis>")
      by (rewrite !str_app_assoc; reflexivity).
    apply (balanced_element "emphasis"); [reflexivity | reflexivity | exact Ht].
  - replace ("<emphasis level=" +:+ dq +:+ "strong" +:+ dq +:+ ">" +:+ t
               +:+ "</emphasis>")
      with (("<emphasis level=" +:+ dq +:+ "strong" +:+ dq +:+ ">")
              +:+ t +:+ "</emphasis>")
      by (rewrite !str_app_assoc; reflexivity).
    apply (balanced_element "emphasis"); [reflexivity | reflexivity | exact Ht].
Qed.

Lemma balanced_image (src alt : string) (title : option string) :
  title_markup_free (Image src alt title) = true ->
  balanced (image src alt title).
Proof.
  unfold image. destruct title as [[|c t]|]; simpl;
    intros H; try apply balanced_nil.
  apply balanced_plain. unfold markup_free in *. simpl. exact H.
Qed.

Lemma str_int_chars (n : Z) :
  string_forallb (fun c => is_digit c || Ascii.eqb c "-") (str_int n) = true.
Proof.
  assert (Hd : forall d, string_forallb (fun c => is_digit c || Ascii.eqb c "-")
                           (NilZero.string_of_uint d) = true).
  { intros d.
    assert (H : string_forallb (fun c => is_digit c || Ascii.eqb c "-")
                  (NilEmpty.string_of_uint d) = true).
    { induction d; simpl; auto. }
    destruct d; try exact H; reflexivity. }
  unfold str_int. destruct (Z.to_int n) as [d|d]; simpl;
    [apply Hd | apply Hd].
Qed.

Lemma attr_value_scan (name : string) (attrs stk : list string) (v : string) :
  string_forallb (fun c => is_digit c || Ascii.eqb c "-") v = true ->
  xml_run (XmlState stk (InAttrValue name attrs dq_char)) v
  = Some (XmlState stk (InAttrValue name attrs dq_char)).
Proof.
  induction v as [|c v IH]; cbn [string_forallb]; intros H;
    [reflexivity |].
  apply andb_true_iff in H as [Hc Hv].
  cbn [xml_run]. unfold xml_step. cbn [mode open_elems].
  assert (Hq : Ascii.eqb c dq_char = false /\ Ascii.eqb c "<" = false
               /\ Ascii.eqb c "&" = false).
  { revert Hc. clear.
    destruct c as [[] [] [] [] [] [] [] []]; simpl; intros H;
      try discriminate; repeat split; reflexivity. }
  destruct Hq as (-> & -> & ->). now apply IH.
Qed.

Lemma balanced_block_quote (t : string) :
  balanced t -> balanced (block_quote mistune_HTMLRenderer t).
Proof.
  intros Ht. cbv [block_quote mistune_HTMLRenderer].
  replace ("<blockquote>" +:+ nl +:+ t +:+ "</blockquote>" +:+ nl)
    with (("<blockquote>" +:+ (nl +:+ t) +:+ "</blockquote>") +:+ nl)
    by (rewrite !str_app_assoc; reflexivity).
  apply balanced_app; [| scan_literal].
  apply (balanced_element "blockquote"); [reflexivity | reflexivity |].
  apply balanced_app; [scan_literal | exact Ht].
Qed.

Lemma balanced_list_item (t : string) :
  balanced t -> balanced (list_item mistune_HTMLRenderer t).
Proof.
  intros Ht. cbv [list_item mistune_HTMLRenderer].
  replace ("<li>" +:+ t +:+ "</li>" +:+ nl)
    with (("<li>" +:+ t +:+ "</li>") +:+ nl)
    by (rewrite !str_app_assoc; reflexivity).
  apply balanced_app; [| scan_literal].
  apply (balanced_element "li"); [reflexivity | reflexivity | exact Ht].
Qed.

Lemma balanced_render_list (t : string) (ordered : bool) (start : option Z) :
  balanced t -> balanced (render_list mistune_HTMLRenderer t ordered start).
Proof.
  intros Ht. cbv [render_list mistune_HTMLRenderer].
  assert (Hbody : balanced (nl +:+ t)).
  { apply balanced_app; [scan_literal | exact Ht]. }
  destruct ordered; [destruct start as [n|] |].
  - replace (("<ol" +:+ " start=" +:+ dq +:+ str_int n +:+ dq) +:+ ">" +:+ nl
               +:+ t +:+ "</ol>" +:+ nl)
      with ((("<ol start=" +:+ dq +:+ str_int n +:+ dq +:+ ">")
               +:+ (nl +:+ t) +:+ "</ol>") +:+ nl)
      by (rewrite !str_app_assoc; reflexivity).
    apply balanced_app; [| scan_literal].
    apply (balanced_element "ol"); [| reflexivity | exact Hbody].
    intros stk k.
    change ("<ol start=" +:+ dq +:+ str_int n +:+ dq +:+ ">")
      with (("<ol start=" +:+ dq) +:+ str_int n +:+ dq +:+ ">").
    rewrite xml_run_app.
    change (xml_run (XmlState stk (InText k)) ("<ol start=" +:+ dq))
      with (Some (XmlState stk (InAttrValue "ol" ["start"] dq_char))).
    cbv iota.
    rewrite xml_run_app, (attr_value_scan _ _ _ _ (str_int_chars n)).
    reflexivity.
  - replace ("<ol" +:+ ">" +:+ nl +:+ t +:+ "</ol>" +:+ nl)
      with (("<ol>" +:+ (nl +:+ t) +:+ "</ol>") +:+ nl)
      by (rewrite !str_app_assoc; reflexivity).
    apply balanced_app; [| scan_literal].
    apply (balanced_element "ol"); [reflexivity | reflexivity | exact Hbody].
  - replace ("<ul>" +:+ nl +:+ t +:+ "</ul>" +:+ nl)
      with (("<ul>" +:+ (nl +:+ t) +:+ "</ul>") +:+ nl)
      by (rewrite !str_app_assoc; reflexivity).
    apply balanced_app; [| scan_literal].
    apply (balanced_element "ul"); [reflexivity | reflexivity | exact Hbody].
Qed.

Lemma balanced_render_token (tok : node) :
  node_forall title_markup_free tok = true ->
  balanced (render_token mistune_HTMLRenderer tok).
Proof.
  induction tok as [tok IH] using node_induction.
  rewrite node_forall_children. intros H.
  apply andb_true_iff in H as [Htitle Hkids].
  assert (Hjoin : balanced
            (str_join (map (render_token mistune_HTMLRenderer) (children tok)))).
  { apply balanced_join. rewrite List.Forall_forall in IH.
    rewrite forallb_forall in Hkids.
    apply List.Forall_forall. intros x Hx.
    apply in_map_iff in Hx as (c & <- & Hc). auto. }
  destruct tok; cbn [render_token children] in *.
  - now apply balanced_heading.
  - now apply balanced_paragraph.
  - now apply balanced_emphasis.
  - now apply balanced_emphasis.
  - apply balanced_break. simpl. tauto.
  - apply balanced_break. simpl. tauto.
  - now apply balanced_image.
  - exact Hjoin.
  - apply balanced_escape.
  - apply balanced_escape.
  - apply balanced_escape.
  - now apply balanced_block_quote.
  - now apply balanced_render_list.
  - now apply balanced_list_item.
Qed.

Lemma balanced_document (doc : list node) :
  titles_markup_free doc = true ->
  balanced (render_tokens mistune_HTMLRenderer doc).
Proof.
  intros Htitles. apply balanced_join. apply List.Forall_forall.
  intros x Hx. apply in_map_iff in Hx as (c & <- & Hc).
  apply balanced_render_token.
  unfold titles_markup_free in Htitles.
  rewrite forallb_forall in Htitles. auto.
Qed.

(** *** Characters of the rendering *)

Lemma continuation_marker (d : ascii) :
  is_continuation d = false ->
  Ascii.eqb d "191" = false /\ Ascii.eqb d "190" = false.
Proof.
  destruct d as [[] [] [] [] [] [] [] []]; simpl; intros H;
    try discriminate; split; reflexivity.
Qed.

Lemma is_noncharacter_app (c : ascii) (a b : string) :
  starts_clean b = true ->
  is_noncharacter c (a +:+ b) = is_noncharacter c a.
Proof.
  intros Hb. unfold is_noncharacter. f_equal.
  destruct a as [|d [|e a]]; cbn [String.append].
  - destruct b as [|d b]; [reflexivity |].
    apply negb_true_iff, continuation_marker in Hb as [-> _]. reflexivity.
  - f_equal. destruct b as [|e b]; [reflexivity |].
    apply negb_true_iff, continuation_marker in Hb as [-> ->]. reflexivity.
  - reflexivity.
Qed.

Lemma xml_text_app (a b : string) :
  xml_text a = true -> xml_text b = true -> xml_text (a +:+ b) = true.
Proof.
  unfold xml_text. intros Ha Hb.
  apply andb_true_iff in Ha as [Ha Hsa]. apply andb_true_iff in Hb as [Hb Hsb].
  apply andb_true_iff. split.
  - clear Hsa. induction a as [|c a IH]; [exact Hb |].
    cbn [String.append xml_chars] in *.
    rewrite (is_noncharacter_app _ _ _ Hsb).
    apply andb_true_iff in Ha as [Hc Ha]. now rewrite Hc, IH.
  - destruct a; [exact Hsb | exact Hsa].
Qed.

Lemma xml_text_join (parts : list string) :
  Forall (fun part => xml_text part = true) parts ->
  xml_text (str_join parts) = true.
Proof.
  induction 1 as [|x xs Hx _ IH]; simpl;
    [reflexivity | now apply xml_text_app].
Qed.

Lemma entity_first_char (e : ascii) (rest : string) :
  match entity_form e +:+ rest with
  | String x _ => Ascii.eqb x "190" || Ascii.eqb x "191"
  | EmptyString => false
  end
  = (Ascii.eqb e "190" || Ascii.eqb e "191").
Proof. destruct e as [[] [] [] [] [] [] [] []]; reflexivity. Qed.

Lemma is_noncharacter_escape (c : ascii) (s : string) :
  is_noncharacter c (escape_spec s) = is_noncharacter c s.
Proof.
  unfold is_noncharacter. f_equal.
  destruct s as [|d s]; [reflexivity |]. cbn [escape_spec].
  destruct d as [[] [] [] [] [] [] [] []]; try reflexivity.
  cbn. destruct s as [|e s]; [reflexivity |].
  cbn [escape_spec]. apply entity_first_char.
Qed.

Lemma xml_chars_entity_form (c : ascii) (rest : string) :
  xml_chars (entity_form c +:+ rest)
  = xml_char_ok c && negb (is_noncharacter c rest) && xml_chars rest.
Proof. destruct c as [[] [] [] [] [] [] [] []]; reflexivity. Qed.

Lemma xml_chars_escape (s : string) :
  xml_chars (escape_spec s) = xml_chars s.
Proof.
  induction s as [|c s IH]; [reflexivity |].
  cbn [escape_spec xml_chars].
  now rewrite xml_chars_entity_form, is_noncharacter_escape, IH.
Qed.

Lemma starts_clean_escape (s : string) :
  starts_clean (escape_spec s) = starts_clean s.
Proof.
  destruct s as [|c s]; [reflexivity |]. cbn [escape_spec].
  destruct c as [[] [] [] [] [] [] [] []]; reflexivity.
Qed.

Lemma xml_text_escape (s : string) :
  xml_text (html_escape s) = xml_text s.
Proof.
  unfold xml_text.
  now rewrite html_escape_spec, xml_chars_escape, starts_clean_escape.
Qed.

Lemma xml_text_digits (s : string) :
  string_forallb (fun c => is_digit c || Ascii.eqb c "-") s = true ->
  xml_text s = true.
Proof.
  intros H. unfold xml_text. apply andb_true_iff. split.
  - induction s as [|c s IH]; [reflexivity |].
    cbn [string_forallb xml_chars] in *.
    apply andb_true_iff in H as [Hc Hs]. rewrite (IH Hs).
    revert Hc. clear.
    destruct c as [[] [] [] [] [] [] [] []]; simpl; intros H;
      try discriminate; reflexivity.
  - destruct s as [|c s]; [reflexivity |].
    cbn [string_forallb] in H. apply andb_true_iff in H as [Hc _].
    revert Hc. clear.
    destruct c as [[] [] [] [] [] [] [] []]; simpl; intros H;
      try discriminate; reflexivity.
Qed.

Ltac text_pieces :=
  repeat first
    [ assumption
    | reflexivity
    | apply xml_text_app ].

Lemma xml_text_rules (t : string) :
  xml_text t = true ->
  (forall level, xml_text (heading t level) = true)
  /\ xml_text (paragraph t) = true
  /\ xml_text (emphasis t) = true
  /\ xml_text (strong t) = true
  /\ xml_text (block_quote mistune_HTMLRenderer t) = true
  /\ xml_text (list_item mistune_HTMLRenderer t) = true
  /\ forall ordered start,
       xml_text (render_list mistune_HTMLRenderer t ordered start) = true.
Proof.
  intros Ht.
  cbv [heading paragraph emphasis strong block_quote list_item render_list
       mistune_HTMLRenderer].
  split; [| split; [| split; [| split; [| split; [| split]]]]];
    try (text_pieces; fail).
  - intros level. pose proof (break_time_cases level) as H. simpl in H.
    destruct H as [<- | [<- | [<- | [<- | []]]]]; text_pieces.
  - intros [] [k|]; text_pieces.
    apply xml_text_digits, str_int_chars.
Qed.

Lemma xml_text_render_token (tok : node) :
  node_forall content_xml_text tok = true ->
  xml_text (render_token mistune_HTMLRenderer tok) = true.
Proof.
  induction tok as [tok IH] using node_induction.
  rewrite node_forall_children. intros H.
  apply andb_true_iff in H as [Hcontent Hkids].
  assert (Hjoin : xml_text
            (str_join (map (render_token mistune_HTMLRenderer) (children tok)))
          = true).
  { apply xml_text_join. rewrite List.Forall_forall in IH.
    rewrite forallb_forall in Hkids.
    apply List.Forall_forall. intros x Hx.
    apply in_map_iff in Hx as (c & <- & Hc). auto. }
  destruct (xml_text_rules _ Hjoin)
    as (Hhead & Hpara & Hem & Hstrong & Hquote & Hitem & Hlist).
  destruct tok; cbn [render_token children content_xml_text] in *;
    auto; try reflexivity.
  - unfold image. destruct title as [[|c t]|]; try reflexivity.
    cbn [truthy default from_option id]. now apply xml_text_app.
  - unfold text. now rewrite xml_text_escape.
  - unfold codespan, text. now rewrite xml_text_escape.
  - unfold block_code, text. now rewrite xml_text_escape.
Qed.

Lemma xml_chars_document (parse : string -> list node) (src : string) :
  contents_xml_text (parse src) = true ->
  xml_chars (markdown_to_ssml mistune_HTMLRenderer parse src) = true.
Proof.
  intros Hcontent.
  assert (H : xml_text (markdown_to_ssml mistune_HTMLRenderer parse src)
              = true).
  { unfold markdown_to_ssml. apply xml_text_app; [reflexivity |].
    apply xml_text_app; [| reflexivity].
    apply xml_text_join, List.Forall_forall. intros x Hx.
    apply in_map_iff in Hx as (c & <- & Hc).
    apply xml_text_render_token.
    unfold contents_xml_text in Hcontent.
    rewrite forallb_forall in Hcontent. auto. }
  unfold xml_text in H. now apply andb_true_iff in H as [H _].
Qed.

(** X1. For a document of the token kinds modelled here (the spec's
    eleven, lists, list items and block quotes) in which no image title
    holds [<], [&] or [>]: every tag the renderer writes is balanced and
    every [&] starts a reference, so the output of [markdown_to_ssml] is
    well-formed XML exactly when it holds no character that XML
    excludes; it is well-formed whenever the texts, code and titles of
    the document hold none. *)
Theorem markup_free_titles_well_formed
    (parse : string -> list node) (src : string) :
  titles_markup_free (parse src) = true ->
  balanced (render_tokens mistune_HTMLRenderer (parse src))
  /\ well_formed (markdown_to_ssml mistune_HTMLRenderer parse src)
     = xml_chars (markdown_to_ssml mistune_HTMLRenderer parse src)
  /\ (contents_xml_text (parse src) = true ->
      well_formed (markdown_to_ssml mistune_HTMLRenderer parse src) = true).
Proof.
  intros Htitles.
  pose proof (balanced_document _ Htitles) as Hbal.
  assert (Hscan : well_formed (markdown_to_ssml mistune_HTMLRenderer parse src)
                  = xml_chars (markdown_to_ssml mistune_HTMLRenderer parse src)).
  { unfold well_formed.
    destruct (balanced_element "speak" "<speak>" "</speak>" _
                (fun _ _ => eq_refl) (fun _ _ => eq_refl) Hbal [] 0%nat)
      as [k Hk].
    unfold markdown_to_ssml. rewrite Hk. apply andb_true_r. }
  split; [exact Hbal | split; [exact Hscan |]].
  intros Hcontent. rewrite Hscan. now apply xml_chars_document.
Qed.

Lemma markup_free_titles_well_formed_witness :
  well_formed
    (markdown_to_ssml mistune_HTMLRenderer (fun _ => titled_image_doc)
       "## Results")
  = true.
Proof.
  destruct (markup_free_titles_well_formed (fun _ => titled_image_doc)
              "## Results") as (_ & _ & Hwf); [reflexivity |].
  apply Hwf. reflexivity.
Defined.


(** ** Paragraph start tags in the output when titles hold no [<] *)

Lemma str_count_from_skip (sub a rest : string) :
  str_count_from (String.length a) sub (a +:+ rest)
  = str_count_from 0 sub rest.
Proof. induction a as [|c a IH]; simpl; [reflexivity | exact IH]. Qed.

Lemma adds_p_tags_nil : adds_p_tags "" 0.
Proof. intros rest. reflexivity. Qed.

Lemma adds_p_tags_app (a b : string) (n m : nat) :
  adds_p_tags a n -> adds_p_tags b m -> adds_p_tags (a +:+ b) (n + m).
Proof.
  intros Ha Hb rest. rewrite str_app_assoc, Ha, Hb. lia.
Qed.

Lemma adds_p_tags_count (s : string) (n : nat) :
  adds_p_tags s n -> str_count "<p>" s = n.
Proof.
  intros H. specialize (H ""). rewrite str_app_nil_r in H.
  rewrite H. unfold str_count. simpl. lia.
Qed.

Lemma adds_p_tags_join (f : node -> string) (g : node -> nat)
    (cs : list node) :
  (forall c, In c cs -> adds_p_tags (f c) (g c)) ->
  adds_p_tags (str_join (map f cs)) (list_sum (map g cs)).
Proof.
  induction cs as [|c cs IH]; simpl; intros H; [apply adds_p_tags_nil |].
  apply adds_p_tags_app; [apply H; now left | apply IH; auto].
Qed.

Lemma adds_p_tags_start : adds_p_tags "<p>" 1.
Proof.
  intros rest. unfold str_count.
  change ("<p>" +:+ rest) with (String "<" ("p>" +:+ rest)).
  cbn [str_count_from].
  change (String "<" ("p>" +:+ rest)) with ("<p>" +:+ rest).
  rewrite prefix_app.
  change (Nat.pred (String.length "<p>")) with (String.length "p>").
  now rewrite str_count_from_skip.
Qed.

Lemma adds_p_tags_lt_free (s : string) :
  string_existsb (fun c => Ascii.eqb c "<") s = false -> adds_p_tags s 0.
Proof.
  induction s as [|c s IH]; cbn [string_existsb]; intros H rest;
    [reflexivity |].
  apply orb_false_elim in H as [Hc Hs].
  unfold str_count. cbn [String.append str_count_from String.prefix].
  destruct (ascii_dec "<" c) as [<- | _]; [discriminate |].
  apply (IH Hs rest).
Qed.

Lemma adds_p_tags_escape (s : string) : adds_p_tags (html_escape s) 0.
Proof.
  apply adds_p_tags_lt_free. rewrite html_escape_spec.
  eapply string_existsb_weaken; [| apply escape_spec_no_raw].
  intros c Hc. cbv beta. now rewrite Hc.
Qed.

Lemma adds_p_tags_break (duration : string) :
  In duration ["300ms"; "200ms"; "100ms"; "0ms"; "400ms"; "600ms"] ->
  adds_p_tags ("<break time=" +:+ dq +:+ duration +:+ dq +:+ "/>" +:+ nl) 0.
Proof.
  simpl. intros [<- | [<- | [<- | [<- | [<- | [<- | []]]]]]] rest;
    reflexivity.
Qed.

Lemma adds_p_tags_heading (t : string) (level : Z) (n : nat) :
  adds_p_tags t n -> adds_p_tags (heading t level) n.
Proof.
  intros Ht. unfold heading. rewrite <- (Nat.add_0_r n).
  apply adds_p_tags_app; [exact Ht |].
  apply adds_p_tags_break.
  pose proof (break_time_cases level) as H. simpl in H |- *. tauto.
Qed.

Lemma adds_p_tags_paragraph (t : string) (n : nat) :
  adds_p_tags t n -> adds_p_tags (paragraph t) (S n).
Proof.
  intros Ht. unfold paragraph.
  change (S n) with (1 + n)%nat.
  apply adds_p_tags_app; [apply adds_p_tags_start |].
  rewrite <- (Nat.add_0_r n).
  apply adds_p_tags_app; [exact Ht | intros rest; reflexivity].
Qed.

Lemma adds_p_tags_emphasis (t : string) (n : nat) :
  adds_p_tags t n -> adds_p_tags (emphasis t) n /\ adds_p_tags (strong t) n.
Proof.
  intros Ht. split; unfold emphasis, strong.
  - replace ("<emphasis level=" +:+ dq +:+ "moderate" +:+ dq +:+ ">" +:+ t
               +:+ "</emphasis>")
      with (("<emphasis level=" +:+ dq +:+ "moderate" +:+ dq +:+ ">")
              +:+ t +:+ "</emphasis>")
      by (rewrite !str_app_assoc; reflexivity).
    change n with (0 + n)%nat.
    apply adds_p_tags_app; [intros rest; reflexivity |].
    rewrite <- (Nat.add_0_r n).
    apply adds_p_tags_app; [exact Ht | intros rest; reflexivity].
  - replace ("<emphasis level=" +:+ dq +:+ "strong" +:+ dq +:+ ">" +:+ t
               +:+ "</emphasis>")
      with (("<emphasis level=" +:+ dq +:+ "strong" +:+ dq +:+ ">")
              +:+ t +:+ "</emphasis>")
      by (rewrite !str_app_assoc; reflexivity).
    change n with (0 + n)%nat.
    apply adds_p_tags_app; [intros rest; reflexivity |].
    rewrite <- (Nat.add_0_r n).
    apply adds_p_tags_app; [exact Ht | intros rest; reflexivity].
Qed.

Lemma adds_p_tags_image (src alt : string) (title : option string) :
  title_lt_free (Image src alt title) = true ->
  adds_p_tags (image src alt title) 0.
Proof.
  unfold image. destruct title as [[|c t]|]; cbn [title_lt_free truthy];
    intros H; try apply adds_p_tags_nil.
  apply negb_true_iff in H.
  change 0%nat with (0 + 0)%nat.
  apply adds_p_tags_app; [intros rest; reflexivity |].
  now apply adds_p_tags_lt_free.
Qed.

Lemma str_int_lt_free (n : Z) :
  string_existsb (fun c => Ascii.eqb c "<") (str_int n) = false.
Proof.
  generalize (str_int_chars n).
  induction (str_int n) as [|c s IH]; cbn [string_forallb string_existsb];
    intros H; [reflexivity |].
  apply andb_true_iff in H as [Hc Hs]. rewrite (IH Hs), orb_false_r.
  revert Hc. clear.
  destruct c as [[] [] [] [] [] [] [] []]; simpl; intros H;
    try discriminate; reflexivity.
Qed.

Lemma adds_p_tags_inherited (t : string) (n : nat) :
  adds_p_tags t n ->
  adds_p_tags (block_quote mistune_HTMLRenderer t) n
  /\ adds_p_tags (list_item mistune_HTMLRenderer t) n
  /\ forall ordered start,
       adds_p_tags (render_list mistune_HTMLRenderer t ordered start) n.
Proof.
  intros Ht.
  assert (Hwrap : forall a b : string,
             adds_p_tags a 0 -> adds_p_tags b 0 ->
             adds_p_tags (a +:+ t +:+ b) n).
  { intros a b Ha Hb. change n with (0 + n)%nat.
    apply adds_p_tags_app; [exact Ha |].
    rewrite <- (Nat.add_0_r n). now apply adds_p_tags_app. }
  cbv [block_quote list_item render_list mistune_HTMLRenderer].
  split; [| split; [| intros [] [k|]]].
  - rewrite <- str_app_assoc.
    apply Hwrap; intros rest; reflexivity.
  - apply Hwrap; intros rest; reflexivity.
  - replace (("<ol" +:+ " start=" +:+ dq +:+ str_int k +:+ dq) +:+ ">" +:+ nl
               +:+ t +:+ "</ol>" +:+ nl)
      with ((("<ol start=" +:+ dq) +:+ str_int k +:+ (dq +:+ ">" +:+ nl))
              +:+ t +:+ "</ol>" +:+ nl)
      by (rewrite !str_app_assoc; reflexivity).
    apply Hwrap; [| intros rest; reflexivity].
    change 0%nat with (0 + (0 + 0))%nat.
    apply adds_p_tags_app; [intros rest; reflexivity |].
    apply adds_p_tags_app;
      [apply adds_p_tags_lt_free, str_int_lt_free | intros rest; reflexivity].
  - replace ("<ol" +:+ ">" +:+ nl +:+ t +:+ "</ol>" +:+ nl)
      with (("<ol>" +:+ nl) +:+ t +:+ "</ol>" +:+ nl)
      by (rewrite !str_app_assoc; reflexivity).
    apply Hwrap; intros rest; reflexivity.
  - rewrite <- str_app_assoc. apply Hwrap; intros rest; reflexivity.
  - rewrite <- str_app_assoc. apply Hwrap; intros rest; reflexivity.
Qed.

Lemma adds_p_tags_render_token (tok : node) :
  node_forall title_lt_free tok = true ->
  adds_p_tags (render_token mistune_HTMLRenderer tok)
    (count_nodes is_paragraph tok).
Proof.
  induction tok as [tok IH] using node_induction.
  rewrite node_forall_children, count_nodes_children. intros H.
  apply andb_true_iff in H as [Htitle Hkids].
  assert (Hjoin : adds_p_tags
            (str_join (map (render_token mistune_HTMLRenderer) (children tok)))
            (list_sum (map (count_nodes is_paragraph) (children tok)))).
  { apply adds_p_tags_join. rewrite List.Forall_forall in IH.
    rewrite forallb_forall in Hkids. auto. }
  destruct tok; cbn [render_token children is_paragraph] in *;
    rewrite ?Nat.add_0_l.
  - now apply adds_p_tags_heading.
  - now apply adds_p_tags_paragraph.
  - now apply adds_p_tags_emphasis.
  - now apply adds_p_tags_emphasis.
  - apply adds_p_tags_break. simpl. tauto.
  - apply adds_p_tags_break. simpl. tauto.
  - now apply adds_p_tags_image.
  - exact Hjoin.
  - apply adds_p_tags_escape.
  - apply adds_p_tags_escape.
  - apply adds_p_tags_escape.
  - now apply adds_p_tags_inherited.
  - now apply adds_p_tags_inherited.
  - now apply adds_p_tags_inherited.
Qed.

(** X2. For a document of the token kinds modelled here (the spec's
    eleven, lists, list items and block quotes; no raw HTML), when no
    image title holds [<], the output of [markdown_to_ssml] has as many
    paragraph start tags as the document has paragraph nodes. *)
Theorem lt_free_titles_p_count (parse : string -> list node) (src : string) :
  forallb (node_forall title_lt_free) (parse src) = true ->
  str_count "<p>" (markdown_to_ssml mistune_HTMLRenderer parse src)
  = count_paragraphs (parse src).
Proof.
  intros Htitles. apply adds_p_tags_count.
  unfold markdown_to_ssml, count_paragraphs.
  change (list_sum (map (count_nodes is_paragraph) (parse src)))
    with (0 + list_sum (map (count_nodes is_paragraph) (parse src)))%nat.
  apply adds_p_tags_app; [intros rest; reflexivity |].
  rewrite <- (Nat.add_0_r (list_sum _)).
  apply adds_p_tags_app; [| intros rest; reflexivity].
  apply adds_p_tags_join. rewrite forallb_forall in Htitles.
  intros c Hc. now apply adds_p_tags_render_token, Htitles.
Qed.

Lemma lt_free_titles_p_count_witness :
  str_count "<p>"
    (markdown_to_ssml mistune_HTMLRenderer (fun _ => titled_image_doc)
       "## Results")
  = 1%nat.
Proof.
  apply (lt_free_titles_p_count (fun _ => titled_image_doc) "## Results").
  reflexivity.
Defined.

(** ** The driver *)

(** The ways [get_ogg] can go. *)
Lemma get_ogg_cases
    (os : platform) (tts : texttospeech) (ssml output_file : string)
    (w : world) :
  get_ogg os tts ssml output_file w
  = match TextToSpeechClient tts with
    | Raise e => (Raise e, w)
    | Return _ =>
        match synthesize_speech tts ssml get_ogg_voice get_ogg_audio_config with
        | Raise e =>
            (Return tt,
             World (files w)
               (stdout w ++ ["Error generating audio: " +:+ exn_str e]))
        | Return audio =>
            match write_denied os output_file with
            | Some e =>
                (Return tt,
                 World (files w)
                   (stdout w ++ ["Error generating audio: " +:+ exn_str e]))
            | None =>
                (Return tt,
                 World (<[output_file := audio]> (files w))
                   (stdout w ++ [audio_written output_file]))
            end
        end
    end.
Proof.
  unfold get_ogg, bind, call, try_except, write_bytes, print.
  fold get_ogg_voice get_ogg_audio_config.
  destruct (TextToSpeechClient tts) as [[]|e]; [| reflexivity].
  destruct (synthesize_speech tts ssml get_ogg_voice get_ogg_audio_config);
    [| reflexivity].
  destruct (write_denied os output_file); reflexivity.
Qed.

(** The ways [main] can go. *)
Lemma main_cases
    (base : InheritedRenderer) (parse : string -> list node)
    (splitext_root : string -> string) (os : platform) (tts : texttospeech)
    (args : Args) (w : world) :
  main base parse splitext_root os tts args w
  = match files w !! input_file args with
    | None =>
        (Raise (Exn "FileNotFoundError"
                  ("[Errno 2] No such file or directory: '"
                     +:+ input_file args +:+ "'")), w)
    | Some content =>
        match read_denied os (input_file args) with
        | Some e => (Raise e, w)
        | None =>
            match decode_text os content with
            | Raise e => (Raise e, w)
            | Return markdown_input =>
                let ssml := markdown_to_ssml base parse markdown_input in
                let ssml_file := splitext_root (input_file args) +:+ ".ssml" in
                match write_denied os ssml_file with
                | Some e => (Raise e, w)
                | None =>
                    match encode_text os ssml with
                    | Raise e =>
                        (Raise e,
                         World (<[ssml_file := ""]> (files w)) (stdout w))
                    | Return bytes =>
                        let w1 :=
                          World (<[ssml_file := bytes]> (files w))
                            (stdout w ++ [ssml_written ssml_file]) in
                        if args_get_ogg args
                        then get_ogg os tts ssml
                               (splitext_root (input_file args) +:+ ".ogg") w1
                        else (Return tt, w1)
                    end
                end
            end
        end
    end.
Proof.
  unfold main, bind at 1, read_file.
  destruct (files w !! input_file args) as [content|]; [| reflexivity].
  destruct (read_denied os (input_file args)); [reflexivity |].
  destruct (decode_text os content) as [markdown_input|e]; [| reflexivity].
  unfold bind, write_file, print, ret. cbv zeta.
  destruct (write_denied os (splitext_root (input_file args) +:+ ".ssml"));
    [reflexivity |].
  destruct (encode_text os (markdown_to_ssml base parse markdown_input));
    [| reflexivity].
  cbn [files stdout]. destruct (args_get_ogg args); reflexivity.
Qed.

Lemma ssml_ogg_names_differ (root : string) :
  root +:+ ".ssml" <> root +:+ ".ogg".
Proof. intros H. apply (inj (String.app root)) in H. discriminate. Qed.

Lemma get_ogg_other_files
    (os : platform) (tts : texttospeech) (ssml output_file path : string)
    (w : world) :
  path <> output_file ->
  files (snd (get_ogg os tts ssml output_file w)) !! path = files w !! path.
Proof.
  intros Hpath. rewrite get_ogg_cases.
  destruct (TextToSpeechClient tts) as [[]|e]; [| reflexivity].
  destruct (synthesize_speech tts ssml get_ogg_voice get_ogg_audio_config);
    [| reflexivity].
  destruct (write_denied os output_file); cbn [snd files];
    [reflexivity | now apply lookup_insert_ne].
Qed.

Lemma main_other_files
    (base : InheritedRenderer) (parse : string -> list node)
    (splitext_root : string -> string) (os : platform) (tts : texttospeech)
    (args : Args) (w : world) (path : string) :
  path <> splitext_root (input_file args) +:+ ".ssml" ->
  path <> splitext_root (input_file args) +:+ ".ogg" ->
  files (snd (main base parse splitext_root os tts args w)) !! path
  = files w !! path.
Proof.
  intros Hssml Hogg. rewrite main_cases.
  destruct (files w !! input_file args) as [content|]; [| reflexivity].
  destruct (read_denied os (input_file args)); [reflexivity |].
  destruct (decode_text os content) as [markdown_input|e]; [| reflexivity].
  cbv zeta.
  destruct (write_denied os _); [reflexivity |].
  destruct (encode_text os _); [| cbn [snd files]; now apply lookup_insert_ne].
  destruct (args_get_ogg args).
  - rewrite (get_ogg_other_files _ _ _ _ _ _ Hogg). cbn [files].
    now apply lookup_insert_ne.
  - cbn [snd files]. now apply lookup_insert_ne.
Qed.

(** C9, at the failing input. With no credentials configured, building
    the client raises before the [try] block is entered: the exception
    leaves [get_ogg] and [main], the run is aborted and no error line is
    printed; the SSML file written before stays in place. *)
Theorem client_failure_aborts_run :
  main mistune_HTMLRenderer (fun _ => scenario1_doc) notes_root
    plain_platform no_credentials_tts notes_args notes_world
  = (Raise (Exn "DefaultCredentialsError"
              "Your default credentials were not found."),
     World (<["notes.ssml" := scenario1_ssml]> (files notes_world))
       ["SSML content written to file 'notes.ssml'"]).
Proof. reflexivity. Qed.

(** X3. Building the client happens before the [try] block: in a run
    that has read its input and written the SSML file, when it raises,
    the exception leaves [get_ogg] and [main]; the SSML file is there all
    the same and no error line is printed. *)
Theorem client_failure_propagates
    (base : InheritedRenderer) (parse : string -> list node)
    (splitext_root : string -> string) (os : platform) (tts : texttospeech)
    (args : Args) (w : world) (content markdown_input bytes : string)
    (e : exn) :
  let ssml := markdown_to_ssml base parse markdown_input in
  let ssml_file := splitext_root (input_file args) +:+ ".ssml" in
  files w !! input_file args = Some content ->
  read_denied os (input_file args) = None ->
  decode_text os content = Return markdown_input ->
  write_denied os ssml_file = None ->
  encode_text os ssml = Return bytes ->
  args_get_ogg args = true ->
  TextToSpeechClient tts = Raise e ->
  main base parse splitext_root os tts args w
  = (Raise e,
     World (<[ssml_file := bytes]> (files w))
       (stdout w ++ [ssml_written ssml_file])).
Proof.
  intros ssml ssml_file Hfile Hread Hdecode Hwrite Hencode Hflag Hclient.
  rewrite main_cases, Hfile, Hread, Hdecode. cbv zeta.
  fold ssml ssml_file. rewrite Hwrite, Hencode, Hflag.
  now rewrite get_ogg_cases, Hclient.
Qed.

Lemma client_failure_propagates_witness :
  main mistune_HTMLRenderer (fun _ => ampersand_title_doc) notes_root
    plain_platform no_credentials_tts notes_args notes_world
  = (Raise (Exn "DefaultCredentialsError"
              "Your default credentials were not found."),
     World (<["notes.ssml"
              := markdown_to_ssml mistune_HTMLRenderer
                   (fun _ => ampersand_title_doc) scenario1_source]>
              (files notes_world))
       ["SSML content written to file 'notes.ssml'"]).
Proof.
  apply (client_failure_propagates mistune_HTMLRenderer
           (fun _ => ampersand_title_doc) notes_root plain_platform
           no_credentials_tts notes_args notes_world scenario1_source
           scenario1_source);
    reflexivity.
Defined.

(** X20. In a run that has read its input and written the SSML file, when
    the client is built and the synthesis request raises any exception:
    [get_ogg] catches it, prints the error message and returns without
    touching a file; [main] returns normally, and the SSML file holds
    what was written. *)
Theorem synthesis_failure_contained
    (base : InheritedRenderer) (parse : string -> list node)
    (splitext_root : string -> string) (os : platform) (tts : texttospeech)
    (args : Args) (w : world) (content markdown_input bytes : string)
    (e : exn) :
  let ssml := markdown_to_ssml base parse markdown_input in
  let ssml_file := splitext_root (input_file args) +:+ ".ssml" in
  files w !! input_file args = Some content ->
  read_denied os (input_file args) = None ->
  decode_text os content = Return markdown_input ->
  write_denied os ssml_file = None ->
  encode_text os ssml = Return bytes ->
  args_get_ogg args = true ->
  TextToSpeechClient tts = Return tt ->
  synthesize_speech tts ssml get_ogg_voice get_ogg_audio_config = Raise e ->
  (forall (output_file : string) (w0 : world),
     get_ogg os tts ssml output_file w0
     = (Return tt,
        World (files w0)
          (stdout w0 ++ ["Error generating audio: " +:+ exn_str e])))
  /\ main base parse splitext_root os tts args w
     = (Return tt,
        World (<[ssml_file := bytes]> (files w))
          (stdout w
             ++ [ssml_written ssml_file;
                 "Error generating audio: " +:+ exn_str e]))
  /\ files (snd (main base parse splitext_root os tts args w)) !! ssml_file
     = Some bytes.
Proof.
  intros ssml ssml_file Hfile Hread Hdecode Hwrite Hencode Hflag Hclient
    Hsynth.
  assert (Hogg : forall (output_file : string) (w0 : world),
     get_ogg os tts ssml output_file w0
     = (Return tt,
        World (files w0)
          (stdout w0 ++ ["Error generating audio: " +:+ exn_str e]))).
  { intros. now rewrite get_ogg_cases, Hclient, Hsynth. }
  assert (Hmain : main base parse splitext_root os tts args w
     = (Return tt,
        World (<[ssml_file := bytes]> (files w))
          (stdout w
             ++ [ssml_written ssml_file;
                 "Error generating audio: " +:+ exn_str e]))).
  { rewrite main_cases, Hfile, Hread, Hdecode. cbv zeta.
    fold ssml ssml_file. rewrite Hwrite, Hencode, Hflag, Hogg.
    cbn [files stdout]. now rewrite <- app_assoc. }
  split; [exact Hogg | split; [exact Hmain |]].
  rewrite Hmain. cbn [snd files]. apply lookup_insert_eq.
Qed.

Lemma synthesis_failure_contained_witness :
  main mistune_HTMLRenderer (fun _ => scenario1_doc) notes_root
    plain_platform failing_tts notes_args notes_world
  = (Return tt,
     World (<["notes.ssml" := scenario1_ssml]> (files notes_world))
       ["SSML content written to file 'notes.ssml'";
        "Error generating audio: 429 Quota exceeded"]).
Proof.
  apply (synthesis_failure_contained mistune_HTMLRenderer
           (fun _ => scenario1_doc) notes_root plain_platform failing_tts
           notes_args notes_world scenario1_source scenario1_source
           scenario1_ssml (Exn "ResourceExhausted" "429 Quota exceeded"));
    reflexivity.
Defined.



(** X21. When the audio file cannot be opened for writing, the exception
    is raised inside the [try] block: [get_ogg] catches it, prints it as
    an error generating audio, writes nothing and returns normally. *)
Theorem audio_write_failure_contained
    (os : platform) (tts : texttospeech) (ssml output_file audio : string)
    (w : world) (e : exn) :
  TextToSpeechClient tts = Return tt ->
  synthesize_speech tts ssml get_ogg_voice get_ogg_audio_config
  = Return audio ->
  write_denied os output_file = Some e ->
  get_ogg os tts ssml output_file w
  = (Return tt,
     World (files w)
       (stdout w ++ ["Error generating audio: " +:+ exn_str e])).
Proof.
  intros Hclient Hsynth Hwrite.
  now rewrite get_ogg_cases, Hclient, Hsynth, Hwrite.
Qed.

Lemma audio_write_failure_contained_witness :
  get_ogg no_audio_platform working_tts scenario1_ssml "notes.ogg"
    notes_world
  = (Return tt,
     World (files notes_world)
       ["Error generating audio: [Errno 13] Permission denied: 'notes.ogg'"]).
Proof.
  apply (audio_write_failure_contained no_audio_platform working_tts
           scenario1_ssml "notes.ogg" "OggS-audio" notes_world
           (Exn "PermissionError"
              "[Errno 13] Permission denied: 'notes.ogg'")); reflexivity.
Defined.

(** X5. Whatever the service does, [get_ogg] leaves every file other
    than its output file as it was, and only adds to what was printed. *)
Theorem get_ogg_frame
    (os : platform) (tts : texttospeech) (ssml output_file path : string)
    (w : world) :
  path <> output_file ->
  files (snd (get_ogg os tts ssml output_file w)) !! path = files w !! path
  /\ exists printed : list string,
       stdout (snd (get_ogg os tts ssml output_file w)) = stdout w ++ printed.
Proof.
  intros Hpath. split; [now apply get_ogg_other_files |].
  rewrite get_ogg_cases.
  destruct (TextToSpeechClient tts) as [[]|e].
  - destruct (synthesize_speech tts ssml get_ogg_voice get_ogg_audio_config);
      [destruct (write_denied os output_file) |]; cbn [snd stdout]; eauto.
  - cbn [snd]. exists []. now rewrite app_nil_r.
Qed.

Lemma get_ogg_frame_witness :
  files (snd (get_ogg plain_platform working_tts scenario1_ssml "notes.ogg"
                notes_world))
    !! "notes.md"
  = files notes_world !! "notes.md".
Proof.
  apply (get_ogg_frame plain_platform working_tts scenario1_ssml "notes.ogg"
           "notes.md" notes_world).
  discriminate.
Defined.

(** X6. Without the audio flag [main] never calls the speech service: for
    any two services the run is the same.  When the input is read and the
    SSML file can be written, the run returns normally, writes the SSML
    file and nothing else, and prints one line. *)
Theorem main_without_audio
    (base : InheritedRenderer) (parse : string -> list node)
    (splitext_root : string -> string) (os : platform)
    (tts tts' : texttospeech) (args : Args) (w : world) :
  args_get_ogg args = false ->
  main base parse splitext_root os tts args w
  = main base parse splitext_root os tts' args w
  /\ forall content markdown_input bytes : string,
       let ssml_file := splitext_root (input_file args) +:+ ".ssml" in
       files w !! input_file args = Some content ->
       read_denied os (input_file args) = None ->
       decode_text os content = Return markdown_input ->
       write_denied os ssml_file = None ->
       encode_text os (markdown_to_ssml base parse markdown_input)
       = Return bytes ->
       main base parse splitext_root os tts args w
       = (Return tt,
          World (<[ssml_file := bytes]> (files w))
            (stdout w ++ [ssml_written ssml_file])).
Proof.
  intros Hflag. rewrite !main_cases, Hflag. split; [reflexivity |].
  intros content markdown_input bytes ssml_file Hfile Hread Hdecode Hwrite
    Hencode.
  rewrite Hfile, Hread, Hdecode. cbv zeta. fold ssml_file.
  now rewrite Hwrite, Hencode.
Qed.

Lemma main_without_audio_witness :
  main mistune_HTMLRenderer (fun _ => scenario1_doc) notes_root
    plain_platform failing_tts
    {| input_file := "notes.md"; args_get_ogg := false |} notes_world
  = main mistune_HTMLRenderer (fun _ => scenario1_doc) notes_root
      plain_platform working_tts
      {| input_file := "notes.md"; args_get_ogg := false |} notes_world.
Proof.
  apply (main_without_audio mistune_HTMLRenderer (fun _ => scenario1_doc)
           notes_root plain_platform failing_tts working_tts
           {| input_file := "notes.md"; args_get_ogg := false |}
           notes_world); reflexivity.
Defined.



(** X22. When the input file exists but cannot be opened, or its bytes do
    not decode as UTF-8, [main] raises that exception before anything
    else happens: no file is written, nothing is printed, the service is
    not called. *)
Theorem main_unreadable_input
    (base : InheritedRenderer) (parse : string -> list node)
    (splitext_root : string -> string) (os : platform) (tts : texttospeech)
    (args : Args) (w : world) (content : string) (e : exn) :
  files w !! input_file args = Some content ->
  read_denied os (input_file args) = Some e
  \/ (read_denied os (input_file args) = None
      /\ decode_text os content = Raise e) ->
  main base parse splitext_root os tts args w = (Raise e, w).
Proof.
  intros Hfile [Hread | [Hread Hdecode]]; rewrite main_cases, Hfile, Hread;
    [reflexivity | now rewrite Hdecode].
Qed.

Lemma main_unreadable_input_witness :
  main mistune_HTMLRenderer (fun _ => scenario1_doc) notes_root
    undecodable_platform working_tts notes_args notes_world
  = (Raise (Exn "UnicodeDecodeError"
              "'utf-8' codec can't decode byte 0xff in position 0"),
     notes_world).
Proof.
  apply (main_unreadable_input mistune_HTMLRenderer (fun _ => scenario1_doc)
           notes_root undecodable_platform working_tts notes_args
           notes_world scenario1_source);
    [reflexivity | right; split; reflexivity].
Defined.

(** X23. When the SSML file cannot be opened for writing, [main] raises
    that exception with no file written and nothing printed, and the
    speech service is not called even with the audio flag. *)
Theorem main_ssml_write_denied
    (base : InheritedRenderer) (parse : string -> list node)
    (splitext_root : string -> string) (os : platform)
    (tts : texttospeech) (args : Args) (w : world)
    (content markdown_input : string) (e : exn) :
  files w !! input_file args = Some content ->
  read_denied os (input_file args) = None ->
  decode_text os content = Return markdown_input ->
  write_denied os (splitext_root (input_file args) +:+ ".ssml") = Some e ->
  main base parse splitext_root os tts args w = (Raise e, w).
Proof.
  intros Hfile Hread Hdecode Hwrite.
  rewrite main_cases, Hfile, Hread, Hdecode. cbv zeta. now rewrite Hwrite.
Qed.

Lemma main_ssml_write_denied_witness :
  main mistune_HTMLRenderer (fun _ => scenario1_doc) notes_root
    read_only_platform working_tts notes_args notes_world
  = (Raise (Exn "PermissionError"
              "[Errno 13] Permission denied: 'notes.ssml'"),
     notes_world).
Proof.
  apply (main_ssml_write_denied mistune_HTMLRenderer
           (fun _ => scenario1_doc) notes_root read_only_platform
           working_tts notes_args notes_world scenario1_source
           scenario1_source); reflexivity.
Defined.

(** X8. Once the input has been read and the SSML file written, the SSML
    file holds what was written at the end of the run whatever the flag
    is and whatever the speech service does, also when the run ends with
    an exception: the audio file has another name. *)
Theorem main_always_writes_ssml
    (base : InheritedRenderer) (parse : string -> list node)
    (splitext_root : string -> string) (os : platform) (tts : texttospeech)
    (args : Args) (w : world) (content markdown_input bytes : string) :
  let ssml_file := splitext_root (input_file args) +:+ ".ssml" in
  files w !! input_file args = Some content ->
  read_denied os (input_file args) = None ->
  decode_text os content = Return markdown_input ->
  write_denied os ssml_file = None ->
  encode_text os (markdown_to_ssml base parse markdown_input) = Return bytes ->
  files (snd (main base parse splitext_root os tts args w)) !! ssml_file
  = Some bytes.
Proof.
  intros ssml_file Hfile Hread Hdecode Hwrite Hencode.
  rewrite main_cases, Hfile, Hread, Hdecode. cbv zeta. fold ssml_file.
  rewrite Hwrite, Hencode.
  destruct (args_get_ogg args).
  - rewrite get_ogg_other_files by apply ssml_ogg_names_differ.
    apply lookup_insert_eq.
  - apply lookup_insert_eq.
Qed.

Lemma main_always_writes_ssml_witness :
  files (snd (main mistune_HTMLRenderer (fun _ => scenario1_doc) notes_root
                plain_platform no_credentials_tts notes_args notes_world))
    !! "notes.ssml"
  = Some scenario1_ssml.
Proof.
  apply (main_always_writes_ssml mistune_HTMLRenderer
           (fun _ => scenario1_doc) notes_root plain_platform
           no_credentials_tts notes_args notes_world scenario1_source
           scenario1_source); reflexivity.
Defined.

(** X9. A file that is neither the SSML file nor the audio file of the
    run, the input file among them, has the same content after [main] as
    before. *)
Theorem main_frame
    (base : InheritedRenderer) (parse : string -> list node)
    (splitext_root : string -> string) (os : platform) (tts : texttospeech)
    (args : Args) (w : world) (path : string) :
  path <> splitext_root (input_file args) +:+ ".ssml" ->
  path <> splitext_root (input_file args) +:+ ".ogg" ->
  files (snd (main base parse splitext_root os tts args w)) !! path
  = files w !! path.
Proof. apply main_other_files. Qed.

Lemma main_frame_witness :
  files (snd (main mistune_HTMLRenderer (fun _ => scenario1_doc) notes_root
                plain_platform working_tts notes_args notes_world))
    !! "notes.md"
  = Some scenario1_source.
Proof.
  apply (main_frame mistune_HTMLRenderer (fun _ => scenario1_doc) notes_root
           plain_platform working_tts notes_args notes_world "notes.md");
    discriminate.
Defined.

(** X10. When the SSML file's name is the input file's own name (the
    input already ends in [.ssml]) and the run gets as far as writing it,
    [main] overwrites its input with the translation. *)
Theorem main_overwrites_ssml_input
    (base : InheritedRenderer) (parse : string -> list node)
    (splitext_root : string -> string) (os : platform) (tts : texttospeech)
    (args : Args) (w : world) (content markdown_input bytes : string) :
  files w !! input_file args = Some content ->
  read_denied os (input_file args) = None ->
  decode_text os content = Return markdown_input ->
  write_denied os (input_file args) = None ->
  encode_text os (markdown_to_ssml base parse markdown_input) = Return bytes ->
  splitext_root (input_file args) +:+ ".ssml" = input_file args ->
  files (snd (main base parse splitext_root os tts args w)) !! input_file args
  = Some bytes.
Proof.
  intros Hfile Hread Hdecode Hwrite Hencode Hname.
  rewrite main_cases, Hfile, Hread, Hdecode. cbv zeta.
  rewrite Hname, Hwrite, Hencode.
  destruct (args_get_ogg args); [| apply lookup_insert_eq].
  rewrite get_ogg_other_files; [apply lookup_insert_eq |].
  rewrite <- Hname at 1. apply ssml_ogg_names_differ.
Qed.

Lemma main_overwrites_ssml_input_witness :
  files (snd (main mistune_HTMLRenderer (fun _ => scenario1_doc) notes_root
                plain_platform working_tts
                {| input_file := "notes.ssml"; args_get_ogg := true |}
                (World {[ "notes.ssml" := scenario1_source ]} [])))
    !! "notes.ssml"
  = Some scenario1_ssml.
Proof.
  apply (main_overwrites_ssml_input mistune_HTMLRenderer
           (fun _ => scenario1_doc) notes_root plain_platform working_tts
           {| input_file := "notes.ssml"; args_get_ogg := true |}
           (World {[ "notes.ssml" := scenario1_source ]} [])
           scenario1_source scenario1_source); reflexivity.
Defined.

(** X11. With the audio flag, an input that is read, files that can be
    written and a service that answers, [main] returns normally having
    written both files, the translation and the audio bytes as returned,
    and printed the two confirmations in that order. *)
Theorem main_with_audio
    (base : InheritedRenderer) (parse : string -> list node)
    (splitext_root : string -> string) (os : platform) (tts : texttospeech)
    (args : Args) (w : world)
    (content markdown_input bytes audio : string) :
  let ssml := markdown_to_ssml base parse markdown_input in
  let ssml_file := splitext_root (input_file args) +:+ ".ssml" in
  let ogg_file := splitext_root (input_file args) +:+ ".ogg" in
  files w !! input_file args = Some content ->
  read_denied os (input_file args) = None ->
  decode_text os content = Return markdown_input ->
  write_denied os ssml_file = None ->
  encode_text os ssml = Return bytes ->
  args_get_ogg args = true ->
  TextToSpeechClient tts = Return tt ->
  synthesize_speech tts ssml get_ogg_voice get_ogg_audio_config
  = Return audio ->
  write_denied os ogg_file = None ->
  main base parse splitext_root os tts args w
  = (Return tt,
     World (<[ogg_file := audio]> (<[ssml_file := bytes]> (files w)))
       (stdout w ++ [ssml_written ssml_file; audio_written ogg_file]))
  /\ files (snd (main base parse splitext_root os tts args w)) !! ssml_file
     = Some bytes
  /\ files (snd (main base parse splitext_root os tts args w)) !! ogg_file
     = Some audio.
Proof.
  intros ssml ssml_file ogg_file Hfile Hread Hdecode Hwrite Hencode Hflag
    Hclient Hsynth Hogg.
  assert (Hmain : main base parse splitext_root os tts args w
    = (Return tt,
       World (<[ogg_file := audio]> (<[ssml_file := bytes]> (files w)))
         (stdout w ++ [ssml_written ssml_file; audio_written ogg_file]))).
  { rewrite main_cases, Hfile, Hread, Hdecode. cbv zeta.
    fold ssml ssml_file ogg_file. rewrite Hwrite, Hencode, Hflag.
    rewrite get_ogg_cases, Hclient, Hsynth, Hogg. cbn [files stdout].
    now rewrite <- app_assoc. }
  rewrite Hmain. cbn [snd files]. split; [reflexivity | split].
  - rewrite lookup_insert_ne by (symmetry; apply ssml_ogg_names_differ).
    apply lookup_insert_eq.
  - apply lookup_insert_eq.
Qed.

Lemma main_with_audio_witness :
  main mistune_HTMLRenderer (fun _ => scenario1_doc) notes_root
    plain_platform working_tts notes_args notes_world
  = (Return tt,
     World (<["notes.ogg" := "OggS-audio"]>
              (<["notes.ssml" := scenario1_ssml]> (files notes_world)))
       ["SSML content written to file 'notes.ssml'";
        "Audio content written to file " +:+ dq +:+ "notes.ogg" +:+ dq]).
Proof.
  apply (main_with_audio mistune_HTMLRenderer (fun _ => scenario1_doc)
           notes_root plain_platform working_tts notes_args notes_world
           scenario1_source scenario1_source scenario1_ssml "OggS-audio");
    reflexivity.
Defined.

(** X12. Running [main] again on the files the first run left, on the
    same platform and with the same service, ends the same way and
    leaves the same files, provided the input file is neither the SSML
    file nor the audio file. *)
Theorem main_rerun_same_files
    (base : InheritedRenderer) (parse : string -> list node)
    (splitext_root : string -> string) (os : platform) (tts : texttospeech)
    (args : Args) (w : world) :
  input_file args <> splitext_root (input_file args) +:+ ".ssml" ->
  input_file args <> splitext_root (input_file args) +:+ ".ogg" ->
  let first := main base parse splitext_root os tts args w in
  let second := main base parse splitext_root os tts args (snd first) in
  fst second = fst first /\ files (snd second) = files (snd first).
Proof.
  intros Hssml Hogg first second.
  pose proof (main_other_files base parse splitext_root os tts args w
                (input_file args) Hssml Hogg) as Hin.
  fold first in Hin. subst second. rewrite (main_cases _ _ _ _ _ _ (snd first)).
  rewrite Hin. subst first. rewrite main_cases.
  destruct (files w !! input_file args) as [content|]; [| now split].
  destruct (read_denied os (input_file args)); [now split |].
  destruct (decode_text os content) as [markdown_input|e]; [| now split].
  cbv zeta.
  destruct (write_denied os _); [now split |].
  destruct (encode_text os _) as [bytes|e];
    [| cbn [fst snd files]; split; [reflexivity | apply insert_insert_eq]].
  destruct (args_get_ogg args);
    [| cbn [fst snd files]; split; [reflexivity | apply insert_insert_eq]].
  rewrite !get_ogg_cases.
  destruct (TextToSpeechClient tts) as [[]|e];
    [| cbn [fst snd files]; split; [reflexivity | apply insert_insert_eq]].
  destruct (synthesize_speech tts _ get_ogg_voice get_ogg_audio_config)
    as [audio|e];
    [| cbn [fst snd files]; split; [reflexivity | apply insert_insert_eq]].
  destruct (write_denied os _);
    cbn [fst snd files]; (split; [reflexivity |]);
    [apply insert_insert_eq |].
  apply map_eq. intros k. rewrite !lookup_insert.
  repeat case_decide; reflexivity.
Qed.

Lemma main_rerun_same_files_witness :
  files (snd (main mistune_HTMLRenderer (fun _ => scenario1_doc) notes_root
                plain_platform working_tts notes_args
                (snd (main mistune_HTMLRenderer (fun _ => scenario1_doc)
                        notes_root plain_platform working_tts notes_args
                        notes_world))))
  = files (snd (main mistune_HTMLRenderer (fun _ => scenario1_doc)
                  notes_root plain_platform working_tts notes_args
                  notes_world)).
Proof.
  apply (main_rerun_same_files mistune_HTMLRenderer (fun _ => scenario1_doc)
           notes_root plain_platform working_tts notes_args notes_world);
    discriminate.
Defined.

(** ** Escaping loses nothing *)

Lemma decode_entity_form (c : ascii) (s : string) :
  decode_entities (entity_form c +:+ s) = String c (decode_entities s).
Proof. destruct c as [[] [] [] [] [] [] [] []]; reflexivity. Qed.

Lemma decode_escape (s : string) : decode_entities (html_escape s) = s.
Proof.
  rewrite html_escape_spec.
  induction s as [|c s IH]; [reflexivity |].
  cbn [escape_spec]. now rewrite decode_entity_form, IH.
Qed.

(** X13. [text] is injective: two contents with the same fragment are the
    same content. *)
Theorem text_injective (a b : string) : text a = text b -> a = b.
Proof.
  unfold text. intros H.
  rewrite <- (decode_escape a), <- (decode_escape b). now rewrite H.
Qed.

Lemma text_injective_witness : "a<b" = "a<b".
Proof. apply (text_injective "a<b" "a<b"). reflexivity. Defined.

Lemma escape_spec_plain (s : string) :
  has_escapable s = false -> escape_spec s = s.
Proof.
  unfold has_escapable.
  induction s as [|c s IH]; cbn [string_existsb escape_spec]; intros H;
    [reflexivity |].
  apply orb_false_elim in H as [Hc Hs].
  destruct (entity_form_cases c) as [[_ ->] | [Hc' _]]; [| congruence].
  simpl. now rewrite IH.
Qed.

(** X14. [text] returns its argument unchanged exactly when the argument
    holds none of the five escapable characters. *)
Theorem text_unchanged_iff (s : string) :
  text s = s <-> has_escapable s = false.
Proof.
  unfold text. rewrite html_escape_spec. split.
  - intros Heq. destruct (has_escapable s) eqn:Hs; [| reflexivity].
    pose proof (proj2 (escape_spec_length s) Hs) as Hlen.
    rewrite Heq in Hlen. lia.
  - apply escape_spec_plain.
Qed.

Lemma entity_form_length_exact (c : ascii) :
  String.length (entity_form c)
  = (1 + 4 * (if Ascii.eqb c "&" then 1 else 0)
       + 3 * (if Ascii.eqb c "<" then 1 else 0)
       + 3 * (if Ascii.eqb c ">" then 1 else 0)
       + 5 * (if Ascii.eqb c dq_char then 1 else 0)
       + 5 * (if Ascii.eqb c "'" then 1 else 0))%nat.
Proof. destruct c as [[] [] [] [] [] [] [] []]; reflexivity. Qed.

(** X15. The length of a text fragment: each ampersand adds four
    characters, each angle bracket three, each quote five; so the
    fragment is at least as long as the content and at most six times as
    long. *)
Theorem text_length (s : string) :
  String.length (text s)
  = (String.length s + 4 * count_char "&" s + 3 * count_char "<" s
       + 3 * count_char ">" s + 5 * count_char dq_char s
       + 5 * count_char "'" s)%nat
  /\ (String.length s <= String.length (text s) <= 6 * String.length s)%nat.
Proof.
  unfold text. rewrite html_escape_spec.
  induction s as [|c s [IHeq IHle]]; [simpl; lia |].
  cbn [escape_spec count_char String.length].
  rewrite str_length_app, entity_form_length_exact.
  destruct (Ascii.eqb c "&") eqn:E1; destruct (Ascii.eqb c "<") eqn:E2;
    destruct (Ascii.eqb c ">") eqn:E3; destruct (Ascii.eqb c dq_char) eqn:E4;
    destruct (Ascii.eqb c "'") eqn:E5;
    try (apply Ascii.eqb_eq in E1; subst c; discriminate);
    try (apply Ascii.eqb_eq in E2; subst c; discriminate);
    try (apply Ascii.eqb_eq in E3; subst c; discriminate);
    try (apply Ascii.eqb_eq in E4; subst c; discriminate);
    lia.
Qed.

(** X16. Escaping distributes over concatenation: a text token split in
    two anywhere renders as the unsplit token does, wherever it stands in
    a list of tokens. *)
Theorem text_split
    (base : InheritedRenderer) (a b : string) (before after : list node) :
  text (a +:+ b) = text a +:+ text b
  /\ render_tokens base (before ++ [Text a; Text b] ++ after)
     = render_tokens base (before ++ [Text (a +:+ b)] ++ after).
Proof.
  split; [apply html_escape_app |].
  unfold render_tokens. rewrite !map_app, !str_join_app.
  f_equal. f_equal. cbn [map str_join render_token foldr].
  unfold text. now rewrite html_escape_app, !str_app_nil_r.
Qed.

(** ** What the output does not depend on *)

Lemma map_ext_Forall {A B : Type} (f g : A -> B) (xs : list A) :
  Forall (fun x => f x = g x) xs -> map f xs = map g xs.
Proof.
  induction 1 as [|x xs Hx _ IH]; simpl; [reflexivity | now rewrite Hx, IH].
Qed.

Lemma render_erase_unrendered (base : InheritedRenderer) (tok : node) :
  render_token base (erase_unrendered tok) = render_token base tok.
Proof.
  induction tok as [tok IH] using node_induction.
  assert (Hkids : map (render_token base) (map erase_unrendered (children tok))
                  = map (render_token base) (children tok)).
  { rewrite map_map. now apply map_ext_Forall. }
  destruct tok; cbn [erase_unrendered render_token children] in *;
    rewrite ?Hkids; reflexivity.
Qed.

(** X17. The output is the same for two documents that differ only in
    image sources and alternative texts, link targets and titles, and
    code block annotations: none of these reaches the SSML. *)
Theorem unrendered_attributes_ignored
    (base : InheritedRenderer) (parse : string -> list node) (src : string) :
  markdown_to_ssml base (fun s => map erase_unrendered (parse s)) src
  = markdown_to_ssml base parse src.
Proof.
  unfold markdown_to_ssml, render_tokens. rewrite map_map.
  do 3 f_equal. apply map_ext. intros tok. apply render_erase_unrendered.
Qed.

Lemma str_join_flat_map (f : node -> string) (g : node -> list node)
    (cs : list node) :
  Forall (fun c => str_join (map f (g c)) = f c) cs ->
  str_join (map f (flat_map g cs)) = str_join (map f cs).
Proof.
  induction 1 as [|c cs Hc _ IH]; simpl; [reflexivity |].
  now rewrite map_app, str_join_app, Hc, IH.
Qed.

Lemma str_join_singleton (x : string) : str_join [x] = x.
Proof. apply str_app_nil_r. Qed.

Lemma render_unlink (base : InheritedRenderer) (tok : node) :
  render_tokens base (unlink tok) = render_token base tok.
Proof.
  unfold render_tokens.
  induction tok as [tok IH] using node_induction.
  pose proof (str_join_flat_map (render_token base) unlink _ IH) as Hkids.
  destruct tok; cbn [unlink render_token children map] in *;
    rewrite ?str_join_singleton, ?Hkids; reflexivity.
Qed.

Lemma forallb_flat_map {A B : Type} (p : B -> bool) (g : A -> list B)
    (xs : list A) :
  Forall (fun x => forallb p (g x) = true) xs ->
  forallb p (flat_map g xs) = true.
Proof.
  induction 1 as [|x xs Hx _ IH]; simpl; [reflexivity |].
  now rewrite forallb_app, Hx, IH.
Qed.

Lemma unlink_no_links (tok : node) :
  forallb (node_forall (fun n => negb (is_link_or_codespan n))) (unlink tok)
  = true.
Proof.
  induction tok as [tok IH] using node_induction.
  pose proof (forallb_flat_map _ unlink _ IH) as Hkids.
  destruct tok;
    cbn [unlink children forallb node_forall is_link_or_codespan negb
         andb] in *;
    rewrite ?Hkids; reflexivity.
Qed.

(** X18. Links and code spans add nothing of their own: replacing every
    link by its children and every code span by a text token gives a
    document without links and code spans that renders to the same
    output. *)
Theorem links_collapse
    (base : InheritedRenderer) (parse : string -> list node) (src : string) :
  markdown_to_ssml base (fun s => flat_map unlink (parse s)) src
  = markdown_to_ssml base parse src
  /\ forallb (node_forall (fun n => negb (is_link_or_codespan n)))
       (flat_map unlink (parse src))
     = true.
Proof.
  split.
  - unfold markdown_to_ssml, render_tokens. do 2 f_equal.
    apply str_join_flat_map, List.Forall_forall. intros tok _.
    apply (render_unlink base tok).
  - apply forallb_flat_map, List.Forall_forall. intros tok _.
    apply unlink_no_links.
Qed.

(** ** Pauses in the output *)

Lemma adds_occurrences_nil (sub : string) : adds_occurrences sub "" 0.
Proof. intros rest. reflexivity. Qed.

Lemma adds_occurrences_app (sub a b : string) (n m : nat) :
  adds_occurrences sub a n -> adds_occurrences sub b m ->
  adds_occurrences sub (a +:+ b) (n + m).
Proof. intros Ha Hb rest. rewrite str_app_assoc, Ha, Hb. lia. Qed.

Lemma adds_occurrences_join (sub : string) (f : node -> string)
    (g : node -> nat) (cs : list node) :
  (forall c, In c cs -> adds_occurrences sub (f c) (g c)) ->
  adds_occurrences sub (str_join (map f cs)) (list_sum (map g cs)).
Proof.
  induction cs as [|c cs IH]; simpl; intros H;
    [apply adds_occurrences_nil |].
  apply adds_occurrences_app; [apply H; now left | apply IH; auto].
Qed.

Lemma adds_occurrences_lt_free (sub s : string) :
  string_existsb (fun c => Ascii.eqb c "<") s = false ->
  adds_occurrences (String "<" sub) s 0.
Proof.
  induction s as [|c s IH]; cbn [string_existsb]; intros H rest;
    [reflexivity |].
  apply orb_false_elim in H as [Hc Hs].
  unfold str_count. cbn [String.append str_count_from String.prefix].
  destruct (ascii_dec "<" c) as [<- | _]; [discriminate |].
  apply (IH Hs rest).
Qed.

Lemma adds_break_pause (duration : string) :
  In duration ["300ms"; "200ms"; "100ms"; "0ms"; "400ms"; "600ms"] ->
  adds_occurrences "<break"
    ("<break time=" +:+ dq +:+ duration +:+ dq +:+ "/>" +:+ nl) 1.
Proof.
  simpl. intros [<- | [<- | [<- | [<- | [<- | [<- | []]]]]]] rest;
    reflexivity.
Qed.

Lemma adds_break_wrap (a t b : string) (n : nat) :
  adds_occurrences "<break" a 0 -> adds_occurrences "<break" b 0 ->
  adds_occurrences "<break" t n ->
  adds_occurrences "<break" (a +:+ t +:+ b) n.
Proof.
  intros Ha Hb Ht. change n with (0 + n)%nat.
  apply adds_occurrences_app; [exact Ha |].
  rewrite <- (Nat.add_0_r n). now apply adds_occurrences_app.
Qed.

Lemma adds_break_rules (t : string) (n : nat) :
  adds_occurrences "<break" t n ->
  (forall level, adds_occurrences "<break" (heading t level) (1 + n))
  /\ adds_occurrences "<break" (paragraph t) (1 + n)
  /\ adds_occurrences "<break" (emphasis t) n
  /\ adds_occurrences "<break" (strong t) n
  /\ adds_occurrences "<break" (block_quote mistune_HTMLRenderer t) n
  /\ adds_occurrences "<break" (list_item mistune_HTMLRenderer t) n
  /\ forall ordered start,
       adds_occurrences "<break"
         (render_list mistune_HTMLRenderer t ordered start) n.
Proof.
  intros Ht.
  cbv [heading paragraph emphasis strong block_quote list_item render_list
       mistune_HTMLRenderer].
  split; [| split; [| split; [| split; [| split; [| split]]]]].
  - intros level. rewrite (Nat.add_comm 1 n).
    apply adds_occurrences_app; [exact Ht |].
    apply adds_break_pause.
    pose proof (break_time_cases level) as H. simpl in H |- *. tauto.
  - replace (1 + n)%nat with (0 + (n + 1))%nat by lia.
    apply adds_occurrences_app; [intros rest; reflexivity |].
    apply adds_occurrences_app; [exact Ht | intros rest; reflexivity].
  - replace ("<emphasis level=" +:+ dq +:+ "moderate" +:+ dq +:+ ">" +:+ t
               +:+ "</emphasis>")
      with (("<emphasis level=" +:+ dq +:+ "moderate" +:+ dq +:+ ">")
              +:+ t +:+ "</emphasis>")
      by (rewrite !str_app_assoc; reflexivity).
    apply adds_break_wrap; [intros rest; reflexivity .. | exact Ht].
  - replace ("<emphasis level=" +:+ dq +:+ "strong" +:+ dq +:+ ">" +:+ t
               +:+ "</emphasis>")
      with (("<emphasis level=" +:+ dq +:+ "strong" +:+ dq +:+ ">")
              +:+ t +:+ "</emphasis>")
      by (rewrite !str_app_assoc; reflexivity).
    apply adds_break_wrap; [intros rest; reflexivity .. | exact Ht].
  - rewrite <- str_app_assoc.
    apply adds_break_wrap; [intros rest; reflexivity .. | exact Ht].
  - apply adds_break_wrap; [intros rest; reflexivity .. | exact Ht].
  - intros [] [k|].
    + replace (("<ol" +:+ " start=" +:+ dq +:+ str_int k +:+ dq) +:+ ">"
                 +:+ nl +:+ t +:+ "</ol>" +:+ nl)
        with ((("<ol start=" +:+ dq) +:+ str_int k +:+ (dq +:+ ">" +:+ nl))
                +:+ t +:+ "</ol>" +:+ nl)
        by (rewrite !str_app_assoc; reflexivity).
      apply adds_break_wrap; [| intros rest; reflexivity | exact Ht].
      change 0%nat with (0 + (0 + 0))%nat.
      apply adds_occurrences_app; [intros rest; reflexivity |].
      apply adds_occurrences_app; [| intros rest; reflexivity].
      apply adds_occurrences_lt_free, str_int_lt_free.
    + replace ("<ol" +:+ ">" +:+ nl +:+ t +:+ "</ol>" +:+ nl)
        with (("<ol>" +:+ nl) +:+ t +:+ "</ol>" +:+ nl)
        by (rewrite !str_app_assoc; reflexivity).
      apply adds_break_wrap; [intros rest; reflexivity .. | exact Ht].
    + rewrite <- str_app_assoc.
      apply adds_break_wrap; [intros rest; reflexivity .. | exact Ht].
    + rewrite <- str_app_assoc.
      apply adds_break_wrap; [intros rest; reflexivity .. | exact Ht].
Qed.

Lemma adds_break_render_token (tok : node) :
  node_forall title_lt_free tok = true ->
  adds_occurrences "<break" (render_token mistune_HTMLRenderer tok)
    (count_nodes is_pause tok).
Proof.
  induction tok as [tok IH] using node_induction.
  rewrite node_forall_children, count_nodes_children. intros H.
  apply andb_true_iff in H as [Htitle Hkids].
  assert (Hjoin : adds_occurrences "<break"
            (str_join (map (render_token mistune_HTMLRenderer) (children tok)))
            (list_sum (map (count_nodes is_pause) (children tok)))).
  { apply adds_occurrences_join. rewrite List.Forall_forall in IH.
    rewrite forallb_forall in Hkids. auto. }
  destruct (adds_break_rules _ _ Hjoin)
    as (Hhead & Hpara & Hem & Hstrong & Hquote & Hitem & Hlist).
  destruct tok; cbn [render_token children is_pause] in *;
    rewrite ?Nat.add_0_l.
  - apply Hhead.
  - exact Hpara.
  - exact Hem.
  - exact Hstrong.
  - apply adds_break_pause. simpl. tauto.
  - apply adds_break_pause. simpl. tauto.
  - unfold image. destruct title as [[|c t]|];
      cbn [title_lt_free truthy] in *;
      try exact (adds_occurrences_nil "<break").
    apply negb_true_iff in Htitle.
    change (adds_occurrences "<break" ("image of " +:+ String c t) 0).
    apply adds_occurrences_lt_free.
    now rewrite string_existsb_app, Htitle.
  - exact Hjoin.
  - apply adds_occurrences_lt_free.
    unfold text. rewrite html_escape_spec.
    eapply string_existsb_weaken; [| apply escape_spec_no_raw].
    intros c Hc. cbv beta. now rewrite Hc.
  - apply adds_occurrences_lt_free.
    unfold codespan, text. rewrite html_escape_spec.
    eapply string_existsb_weaken; [| apply escape_spec_no_raw].
    intros c Hc. cbv beta. now rewrite Hc.
  - apply adds_occurrences_lt_free.
    unfold block_code, text. rewrite html_escape_spec.
    eapply string_existsb_weaken; [| apply escape_spec_no_raw].
    intros c Hc. cbv beta. now rewrite Hc.
  - exact Hquote.
  - apply Hlist.
  - exact Hitem.
Qed.

(** X19. When no image title holds [<], the output of [markdown_to_ssml]
    has exactly one break tag for each heading, paragraph, line break and
    thematic break of the document, and no other. *)
Theorem pauses_counted (parse : string -> list node) (src : string) :
  forallb (node_forall title_lt_free) (parse src) = true ->
  str_count "<break" (markdown_to_ssml mistune_HTMLRenderer parse src)
  = count_pauses (parse src).
Proof.
  intros Htitles.
  assert (Hout : adds_occurrences "<break"
            (markdown_to_ssml mistune_HTMLRenderer parse src)
            (count_pauses (parse src))).
  { unfold markdown_to_ssml, count_pauses.
    change (list_sum (map (count_nodes is_pause) (parse src)))
      with (0 + list_sum (map (count_nodes is_pause) (parse src)))%nat.
    apply adds_occurrences_app; [intros rest; reflexivity |].
    rewrite <- (Nat.add_0_r (list_sum _)).
    apply adds_occurrences_app; [| intros rest; reflexivity].
    apply adds_occurrences_join. rewrite forallb_forall in Htitles.
    intros c Hc. now apply adds_break_render_token, Htitles. }
  specialize (Hout ""). rewrite str_app_nil_r in Hout.
  rewrite Hout. unfold str_count. simpl. lia.
Qed.

Lemma pauses_counted_witness :
  str_count "<break"
    (markdown_to_ssml mistune_HTMLRenderer (fun _ => scenario1_doc)
       scenario1_source)
  = 2%nat.
Proof.
  apply (pauses_counted (fun _ => scenario1_doc) scenario1_source).
  reflexivity.
Defined.
